(** * Mode resolution, key derivation, filter store and CEX mode controller

    A shallow embedding of the scanner's mode engine:
    - [utils/helpers/app-state.js]  (getAppMode, key derivation, cache),
    - [utils/helpers/filters.js]    (per-scope filter getters and setters),
    - [utils/helpers/theme.js]      (applyThemeForMode, as far as it touches
                                     the mode cache),
    - the CEX mode manager          (class CEXModeManager).

    JavaScript values are embedded as an inductive type, objects as property
    lists in insertion order, the key-value store as a finite map, and the
    browser globals the code reads and writes ([window.location.search],
    [window.AppMode], [history], the manager's fields) as one record that is
    threaded through every operation.  A thrown [TypeError] is [None]. *)

From Stdlib Require Import ZArith Ascii String List Bool DecimalString Lia.
From stdpp Require Import base option strings gmap.
Import ListNotations.
Set Warnings "-register-all".
Local Open Scope string_scope.
Local Open Scope list_scope.

(* ===================================================================== *)
(** ** Strings                                                            *)
(* ===================================================================== *)

(** Strings are sequences of 8-bit characters.  The case mappings and
    [trim] below are those of [String.prototype] on the ASCII range, which
    is where chain, exchange, dex and pair identifiers live; characters
    above 127 are left alone by the case mappings. *)
Module Str.

Definition upperChar (c : ascii) : ascii :=
  let n := N_of_ascii c in
  if ((97 <=? n) && (n <=? 122))%N then ascii_of_N (n - 32) else c.

Definition lowerChar (c : ascii) : ascii :=
  let n := N_of_ascii c in
  if ((65 <=? n) && (n <=? 90))%N then ascii_of_N (n + 32) else c.

Fixpoint mapChars (f : ascii -> ascii) (s : string) : string :=
  match s with
  | EmptyString => EmptyString
  | String c s' => String (f c) (mapChars f s')
  end.

Definition toUpperCase : string -> string := mapChars upperChar.
Definition toLowerCase : string -> string := mapChars lowerChar.

(** TAB, LF, VT, FF, CR and SPACE. *)
Definition isWhiteSpace (c : ascii) : bool :=
  let n := N_of_ascii c in
  (((9 <=? n) && (n <=? 13)) || (n =? 32))%N.

Fixpoint trimStart (s : string) : string :=
  match s with
  | EmptyString => EmptyString
  | String c s' => if isWhiteSpace c then trimStart s' else s
  end.

Fixpoint trimEnd (s : string) : string :=
  match s with
  | EmptyString => EmptyString
  | String c s' =>
      match trimEnd s' with
      | EmptyString => if isWhiteSpace c then EmptyString
                       else String c EmptyString
      | t => String c t
      end
  end.

Definition trim (s : string) : string := trimEnd (trimStart s).

(** The characters of a string as one-character strings ([{..."abc"}]). *)
Fixpoint chars (s : string) : list string :=
  match s with
  | EmptyString => []
  | String c s' => String c EmptyString :: chars s'
  end.

Definition ofNat (n : nat) : string := NilZero.string_of_uint (Nat.to_uint n).
Definition ofZ (n : Z) : string := NilZero.string_of_int (Z.to_int n).

End Str.

(* ===================================================================== *)
(** ** JavaScript values                                                  *)
(* ===================================================================== *)

Module Js.

(** The values that reach the store and the registries.  Numbers are the
    integers; [VFun] stands for a built-in function object. *)
Inductive value : Type :=
| VUndef
| VNull
| VBool (b : bool)
| VNum (n : Z)
| VStr (s : string)
| VArr (items : list value)
| VObj (props : list (string * value))
| VFun (name : string).

(** ToBoolean. *)
Definition truthy (v : value) : bool :=
  match v with
  | VUndef | VNull => false
  | VBool b => b
  | VNum n => negb (n =? 0)%Z
  | VStr s => negb (s =? "")
  | VArr _ | VObj _ | VFun _ => true
  end.

(** [typeof v === 'object'] (true of [null], arrays and objects). *)
Definition typeofObject (v : value) : bool :=
  match v with
  | VNull | VArr _ | VObj _ => true
  | _ => false
  end.

(** [a || b] *)
Definition or (a b : value) : value := if truthy a then a else b.

(** Own properties of an object, looked up by name. *)
Fixpoint getOwn (props : list (string * value)) (k : string) : option value :=
  match props with
  | [] => None
  | (k', v) :: rest => if k' =? k then Some v else getOwn rest k
  end.

(** [o.k = v] on the property list: an existing property keeps its
    place, a new one goes last. *)
Fixpoint setProp (k : string) (v : value) (props : list (string * value))
  : list (string * value) :=
  match props with
  | [] => [(k, v)]
  | (k', v') :: rest =>
      if k' =? k then (k, v) :: rest else (k', v') :: setProp k v rest
  end.

(** What every ordinary object inherits from [Object.prototype]. *)
Definition Object_prototype : list (string * value) :=
  [ ("constructor", VFun "Object");
    ("__proto__", VObj []);
    ("hasOwnProperty", VFun "hasOwnProperty");
    ("isPrototypeOf", VFun "isPrototypeOf");
    ("propertyIsEnumerable", VFun "propertyIsEnumerable");
    ("toLocaleString", VFun "toLocaleString");
    ("toString", VFun "toString");
    ("valueOf", VFun "valueOf");
    ("__defineGetter__", VFun "__defineGetter__");
    ("__defineSetter__", VFun "__defineSetter__");
    ("__lookupGetter__", VFun "__lookupGetter__");
    ("__lookupSetter__", VFun "__lookupSetter__") ].

(** [o[k]] and [o.k]: own properties first, then the prototype.  The
    code reads no index, [length] or method off an array, string or
    function through this path, so those answer [undefined]. *)
Definition getProp (o : value) (k : string) : value :=
  match o with
  | VObj props =>
      match getOwn props k with
      | Some v => v
      | None => default VUndef (getOwn Object_prototype k)
      end
  | _ => VUndef
  end.

(** [o?.[k]] *)
Definition getPropOpt (o : value) (k : string) : value :=
  match o with
  | VUndef | VNull => VUndef
  | _ => getProp o k
  end.

(** [Object.prototype.hasOwnProperty.call(o, k)] for the filter field
    names (none of which is an index or [length]). *)
Definition hasOwnProperty (o : value) (k : string) : bool :=
  match o with
  | VObj props => bool_decide (is_Some (getOwn props k))
  | _ => false
  end.

Fixpoint indexed {A} (i : nat) (l : list A) : list (string * A) :=
  match l with
  | [] => []
  | x :: l' => (Str.ofNat i, x) :: indexed (S i) l'
  end.

(** [{ ...v }]: the own enumerable properties of [v]. *)
Definition spread (v : value) : list (string * value) :=
  match v with
  | VObj props => props
  | VArr items => indexed 0 items
  | VStr s => indexed 0 (map VStr (Str.chars s))
  | _ => []
  end.

(** [Object.keys(o)] *)
Definition keys (v : value) : list value :=
  map (fun p => VStr (fst p)) (spread v).

(** [String(v)] *)
Fixpoint String_ (v : value) : string :=
  match v with
  | VUndef => "undefined"
  | VNull => "null"
  | VBool true => "true"
  | VBool false => "false"
  | VNum n => Str.ofZ n
  | VStr s => s
  | VArr items =>
      (fix join (l : list value) : string :=
         match l with
         | [] => ""
         | x :: l' =>
             let sx := match x with
                       | VUndef | VNull => ""
                       | _ => String_ x
                       end in
             match l' with
             | [] => sx
             | _ => sx +:+ "," +:+ join l'
             end
         end) items
  | VObj _ => "[object Object]"
  | VFun name => "function " +:+ name +:+ "() { [native code] }"
  end.

(** [arr.map(f)]; calling [.map] on anything but an array throws. *)
Definition map_ (f : value -> value) (arr : value) : option value :=
  match arr with
  | VArr items => Some (VArr (map f items))
  | _ => None
  end.

(** [v === s] for a string [s]. *)
Definition strictEqStr (v : value) (s : string) : bool :=
  match v with
  | VStr t => t =? s
  | _ => false
  end.

End Js.
Import Js.

(* ===================================================================== *)
(** ** The browser window                                                 *)
(* ===================================================================== *)

(** The three view modes ([{type:'multi'}], [{type:'single', chain}],
    [{type:'cex', cex}]). *)
Inductive Mode : Type :=
| Multi
| Single (chain : string)
| Cex (cex : string).

(** A parsed query string, as [URLSearchParams] holds it. *)
Definition URLSearchParams : Type := list (string * string).

(** Calls that leave the engine: theme and DOM updates, optional
    collaborators (each called only if present) and timers. *)
Inductive Task : Type :=
| TaskCheckURL
| TaskApplyThemeForMode
| TaskRefreshAfterInit.

Inductive Event : Type :=
| EvApplyTheme (cexName : string)
| EvResetTheme
| EvApplyThemeForMode
| EvUpdateUI
| EvToast (msg : string)
| EvRefreshTokensTable
| EvRenderCardSignal
| EvUpdateSignalTheme
| EvRenderToolbar
| EvRenderFilterCard
| EvApplySortToggleState
| EvSetTimeout (ms : nat) (t : Task).

Record Window : Type := mkWindow {
  search : URLSearchParams;            (* window.location.search          *)
  AppMode : option Mode;               (* window.AppMode, [None] = unset  *)
  CONFIG_CHAINS : value;               (* window.CONFIG_CHAINS            *)
  CONFIG_DEXS : value;                 (* window.CONFIG_DEXS              *)
  CONFIG_CEX : value;                  (* window.CONFIG_CEX               *)
  storage : gmap string value;         (* the key-value store             *)
  history : list URLSearchParams;      (* entries pushed by pushState     *)
  monitoring : bool;                   (* pushState/replaceState wrapped  *)
  active : value;                      (* CEXModeManager.active           *)
  selectedCEX : value;                 (* CEXModeManager.selectedCEX      *)
  events : list Event                  (* outgoing calls, oldest first    *)
}.

Definition set_search (q : URLSearchParams) (w : Window) : Window :=
  mkWindow q (AppMode w) (CONFIG_CHAINS w) (CONFIG_DEXS w) (CONFIG_CEX w)
           (storage w) (history w) (monitoring w) (active w) (selectedCEX w)
           (events w).

Definition set_AppMode (m : option Mode) (w : Window) : Window :=
  mkWindow (search w) m (CONFIG_CHAINS w) (CONFIG_DEXS w) (CONFIG_CEX w)
           (storage w) (history w) (monitoring w) (active w) (selectedCEX w)
           (events w).

Definition set_storage (s : gmap string value) (w : Window) : Window :=
  mkWindow (search w) (AppMode w) (CONFIG_CHAINS w) (CONFIG_DEXS w)
           (CONFIG_CEX w) s (history w) (monitoring w) (active w)
           (selectedCEX w) (events w).

Definition set_history (h : list URLSearchParams) (w : Window) : Window :=
  mkWindow (search w) (AppMode w) (CONFIG_CHAINS w) (CONFIG_DEXS w)
           (CONFIG_CEX w) (storage w) h (monitoring w) (active w)
           (selectedCEX w) (events w).

Definition set_monitoring (b : bool) (w : Window) : Window :=
  mkWindow (search w) (AppMode w) (CONFIG_CHAINS w) (CONFIG_DEXS w)
           (CONFIG_CEX w) (storage w) (history w) b (active w)
           (selectedCEX w) (events w).

Definition set_manager (a s : value) (w : Window) : Window :=
  mkWindow (search w) (AppMode w) (CONFIG_CHAINS w) (CONFIG_DEXS w)
           (CONFIG_CEX w) (storage w) (history w) (monitoring w) a s
           (events w).

Definition emit (e : Event) (w : Window) : Window :=
  mkWindow (search w) (AppMode w) (CONFIG_CHAINS w) (CONFIG_DEXS w)
           (CONFIG_CEX w) (storage w) (history w) (monitoring w) (active w)
           (selectedCEX w) (events w ++ [e]).

(** [params.get(name)]: the first value under [name], or [null]. *)
Fixpoint params_get (q : URLSearchParams) (name : string) : option string :=
  match q with
  | [] => None
  | (k, v) :: rest => if k =? name then Some v else params_get rest name
  end.

(** [params.delete(name)]: every pair under [name] goes. *)
Definition params_delete (name : string) (q : URLSearchParams) : URLSearchParams :=
  List.filter (fun p => negb (fst p =? name)) q.

(** [params.set(name, v)]: the first pair under [name] takes the value and
    the others go; without one the pair is appended. *)
Fixpoint params_set (name v : string) (q : URLSearchParams) : URLSearchParams :=
  match q with
  | [] => [(name, v)]
  | (k, v') :: rest =>
      if k =? name then (name, v) :: params_delete name rest
      else (k, v') :: params_set name v rest
  end.

(** Modelled from the spec: the key-value store, which lives outside these
    files.  [get(key, default)] answers the stored value or the default;
    [set(key, value)] replaces what is stored under the key. *)
Definition getFromLocalStorage (key : string) (defaultVal : value)
    (s : gmap string value) : value :=
  default defaultVal (s !! key).

(** Modelled from the spec: the store's [set(key, value)]. *)
Definition saveToLocalStorage (key : string) (v : value)
    (s : gmap string value) : gmap string value :=
  <[key := v]> s.

(* ===================================================================== *)
(** ** utils/helpers/app-state.js                                         *)
(* ===================================================================== *)

(** The mode [getAppMode] derives from the query when nothing is cached:
    the body of its [try] block between the cache test and the store into
    [window.AppMode]. *)
Definition resolveMode (w : Window) : Mode :=
  let cexParam := Str.trim (default "" (params_get (search w) "cex")) in
  let chainParam := Str.toLowerCase (default "" (params_get (search w) "chain")) in
  if negb (cexParam =? "") then Cex (Str.toUpperCase cexParam)
  else if (chainParam =? "") || (chainParam =? "all") then Multi
  else if truthy (CONFIG_CHAINS w) && truthy (getProp (CONFIG_CHAINS w) chainParam)
       then Single chainParam
  else Multi.

(** [getAppMode()]: the cached mode when there is one, otherwise the mode
    resolved from the query, which is cached on the way out.  Nothing in
    the [try] block throws on these inputs, so the [catch] arm is dead. *)
Definition getAppMode (w : Window) : Mode * Window :=
  match AppMode w with
  | Some m => (m, w)
  | None => let mode := resolveMode w in (mode, set_AppMode (Some mode) w)
  end.

(** [invalidateAppModeCache()] *)
Definition invalidateAppModeCache (w : Window) : Window := set_AppMode None w.

(** The key [getActiveTokenKey] derives from the mode it reads. *)
Definition tokenKey (m : Mode) : string :=
  match m with
  | Single chain => "TOKEN_" +:+ Str.toUpperCase chain
  | _ => "TOKEN_MULTICHAIN"
  end.

(** The key [getActiveFilterKey] derives from the mode it reads. *)
Definition filterKey (m : Mode) : string :=
  match m with
  | Single chain => "FILTER_" +:+ Str.toUpperCase chain
  | Cex cex => "FILTER_CEX_" +:+ Str.toUpperCase cex
  | Multi => "FILTER_MULTICHAIN"
  end.

Definition getActiveTokenKey (w : Window) : string * Window :=
  let (m, w') := getAppMode w in (tokenKey m, w').

Definition getActiveFilterKey (w : Window) : string * Window :=
  let (m, w') := getAppMode w in (filterKey m, w').

(** [getActiveFilters(defaultVal)] and [saveActiveFilters(obj)] *)
Definition getActiveFilters (defaultVal : value) (w : Window) : value * Window :=
  let (key, w') := getActiveFilterKey w in
  (getFromLocalStorage key defaultVal (storage w'), w').

Definition saveActiveFilters (obj : value) (w : Window) : Window :=
  let (key, w') := getActiveFilterKey w in
  set_storage (saveToLocalStorage key (or obj (VObj [])) (storage w')) w'.

(** One call of [getAppMode] after each of a series of changes of the
    query; the modes come back oldest first. *)
Fixpoint getAppMode_after (qs : list URLSearchParams) (w : Window) : list Mode * Window :=
  match qs with
  | [] => ([], w)
  | q :: qs' =>
      let (m, w1) := getAppMode (set_search q w) in
      let (ms, w2) := getAppMode_after qs' w1 in
      (m :: ms, w2)
  end.

(* ===================================================================== *)
(** ** utils/helpers/filters.js                                           *)
(* ===================================================================== *)

(** The three callbacks the filter code maps over arrays. *)
Definition lowerOf (x : value) : value := VStr (Str.toLowerCase (String_ x)).
Definition upperOf (x : value) : value := VStr (Str.toUpperCase (String_ x)).
Definition stringOf (x : value) : value := VStr (String_ x).

(** [f && typeof f === 'object'] *)
Definition isRecord (f : value) : bool := truthy f && typeofObject f.

(** [(o.k || []).map(norm)] *)
Definition mapField (norm : value -> value) (o : value) (k : string) : option value :=
  map_ norm (or (getProp o k) (VArr [])).

Definition getFilterMulti (w : Window) : option value :=
  let f := getFromLocalStorage "FILTER_MULTICHAIN" VNull (storage w) in
  if isRecord f then
    let chains := or (getProp f "chains") (VArr []) in
    let cex := or (getProp f "cex") (VArr []) in
    dex ← mapField lowerOf f "dex";
    pair ← mapField upperOf f "pair";
    Some (VObj [("chains", chains); ("cex", cex); ("dex", dex); ("pair", pair)])
  else
    Some (VObj [("chains", VArr []); ("cex", VArr []); ("dex", VArr []);
                ("pair", VArr [])]).

(** One guarded assignment of a setter:
    [if (val && hasOwnProperty(val, k)) next.k = (val.k || []).map(norm)]. *)
Definition mergeField (k : string) (norm : value -> value) (val : value)
    (next : list (string * value)) : option (list (string * value)) :=
  if truthy val && hasOwnProperty val k then
    arr ← mapField norm val k;
    Some (setProp k arr next)
  else Some next.

Definition setFilterMulti (val : value) (w : Window) : option Window :=
  let prev := or (getFromLocalStorage "FILTER_MULTICHAIN" (VObj []) (storage w))
                 (VObj []) in
  let next := spread prev in
  next ← mergeField "chains" lowerOf val next;
  next ← mergeField "cex" upperOf val next;
  next ← mergeField "dex" lowerOf val next;
  next ← mergeField "pair" upperOf val next;
  Some (set_storage (saveToLocalStorage "FILTER_MULTICHAIN" (VObj next) (storage w)) w).

(** [getFilterChain(chain)]: the window it leaves behind, and the record it
    returns unless a [.map] throws. *)
Definition getFilterChain (chain : value) (w : Window) : option value * Window :=
  let chainKey := Str.toLowerCase (String_ chain) in
  let key := "FILTER_" +:+ Str.toUpperCase chainKey in
  let f := getFromLocalStorage key VNull (storage w) in
  let '(f, w) :=
    if negb (truthy f) || negb (typeofObject f) then
      let legacyName :=
        Str.toUpperCase
          (String_ (or (getPropOpt (getPropOpt (CONFIG_CHAINS w) chainKey) "Nama_Chain")
                       (VStr ""))) in
      if negb (legacyName =? "") then
        let legacyKey := "FILTER_" +:+ legacyName in
        let lf := getFromLocalStorage legacyKey VNull (storage w) in
        if isRecord lf then (lf, set_storage (saveToLocalStorage key lf (storage w)) w)
        else (f, w)
      else (f, w)
    else (f, w) in
  if isRecord f then
    (cex ← mapField stringOf f "cex";
     pair ← mapField upperOf f "pair";
     dex ← mapField lowerOf f "dex";
     Some (VObj [("cex", cex); ("pair", pair); ("dex", dex)]), w)
  else (Some (VObj [("cex", VArr []); ("pair", VArr []); ("dex", VArr [])]), w).

Definition setFilterChain (chain : value) (val : value) (w : Window) : option Window :=
  let key := "FILTER_" +:+ Str.toUpperCase (String_ chain) in
  let prev := or (getFromLocalStorage key (VObj []) (storage w)) (VObj []) in
  let next := spread prev in
  next ← mergeField "cex" stringOf val next;
  next ← mergeField "pair" upperOf val next;
  next ← mergeField "dex" lowerOf val next;
  Some (set_storage (saveToLocalStorage key (VObj next) (storage w)) w).

Definition getFilterCEX (cexName : value) (w : Window) : option value :=
  let key := "FILTER_CEX_" +:+ Str.toUpperCase (String_ cexName) in
  let f := getFromLocalStorage key VNull (storage w) in
  if isRecord f then
    let chains := or (getProp f "chains") (VArr []) in
    pair ← mapField upperOf f "pair";
    dex ← mapField lowerOf f "dex";
    Some (VObj [("chains", chains); ("pair", pair); ("dex", dex);
                ("sort", or (getProp f "sort") (VStr "A"))])
  else
    Some (VObj [("chains", VArr (keys (or (CONFIG_CHAINS w) (VObj []))));
                ("pair", VArr []);
                ("dex", VArr (map lowerOf (keys (or (CONFIG_DEXS w) (VObj [])))));
                ("sort", VStr "A")]).

Definition setFilterCEX (cexName : value) (val : value) (w : Window) : option Window :=
  let key := "FILTER_CEX_" +:+ Str.toUpperCase (String_ cexName) in
  let prev := or (getFromLocalStorage key (VObj []) (storage w)) (VObj []) in
  let next := spread prev in
  next ← mergeField "chains" lowerOf val next;
  next ← mergeField "pair" upperOf val next;
  next ← mergeField "dex" lowerOf val next;
  let next := if truthy val && hasOwnProperty val "sort"
              then setProp "sort" (getProp val "sort") next else next in
  Some (set_storage (saveToLocalStorage key (VObj next) (storage w)) w).

(* ===================================================================== *)
(** ** utils/helpers/theme.js                                             *)
(* ===================================================================== *)

(** [applyThemeForMode()] reads the mode through [getAppMode] (which
    fills the cache) and then repaints; the painting is an event here. *)
Definition applyThemeForMode (w : Window) : Window :=
  let (_, w') := getAppMode w in emit EvApplyThemeForMode w'.

(* ===================================================================== *)
(** ** class CEXModeManager                                               *)
(* ===================================================================== *)

(** The manager runs with app-state.js and theme.js loaded, so its
    [typeof ... === 'function'] guards around [invalidateAppModeCache] and
    [applyThemeForMode] pass; the [URL] constructor and [history.pushState]
    do not throw on the page's own location, so the [catch] arms around
    them are not taken.  The other optional collaborators (toast, table
    refresh, signal cards) appear as events. *)
Module CEXModeManager.

Definition STORAGE_KEY : string := "CEX_MODE_STATE".

Definition theme (color bg : string) : value :=
  VObj [("color", VStr color); ("bg", VStr bg)].

Definition CEX_THEMES : value :=
  VObj [ ("BINANCE", theme "#e0a50c" "#fffbeb");
         ("GATE", theme "#D5006D" "#fff0f5");
         ("MEXC", theme "#16b979" "#f0fdf4");
         ("KUCOIN", theme "#24ae8f" "#f0fdfa");
         ("BYBIT", theme "#ad7e05" "#fffbeb");
         ("BITGET", theme "#00f0ff" "#edfeff");
         ("OKX", theme "#000000" "#f9fafb");
         ("HTX", theme "#202e3b" "#f3f4f6");
         ("INDODAX", theme "#094e9d" "#eff6ff");
         ("LBANK", theme "#e5ad19" "#fffbeb") ].

Definition defaultState : value :=
  VObj [("active", VBool false); ("selectedCEX", VNull)].

Definition loadState (w : Window) : value :=
  let stored := getFromLocalStorage STORAGE_KEY VNull (storage w) in
  if truthy stored && typeofObject stored then stored else defaultState.

(** [new CEXModeManager()] *)
Definition constructor (w : Window) : Window :=
  let state := loadState w in
  set_manager (or (getProp state "active") (VBool false))
              (or (getProp state "selectedCEX") VNull) w.

Definition saveState (w : Window) : Window :=
  let data := VObj [("active", active w); ("selectedCEX", selectedCEX w)] in
  set_storage (saveToLocalStorage STORAGE_KEY data (storage w)) w.

(** [window.history.pushState({}, '', url)]: a new history entry, the
    location follows, and once [setupURLMonitoring] has wrapped the call a
    URL check is scheduled 100 ms later. *)
Definition pushState (url : URLSearchParams) (w : Window) : Window :=
  let w := set_search url (set_history (history w ++ [url]) w) in
  if monitoring w then emit (EvSetTimeout 100 TaskCheckURL) w else w.

(** [applyTheme(cexName)]: paints only when a theme is found. *)
Definition applyTheme (cexName : string) (w : Window) : Window :=
  let cexConfig := getPropOpt (CONFIG_CEX w) cexName in
  if truthy cexConfig || truthy (getProp CEX_THEMES cexName)
  then emit (EvApplyTheme cexName) w else w.

Definition resetTheme (w : Window) : Window :=
  applyThemeForMode (emit EvResetTheme w).

Definition updateUI (w : Window) : Window := emit EvUpdateUI w.

Definition refreshSignalCards (w : Window) : Window :=
  emit EvUpdateSignalTheme (emit EvRenderCardSignal w).

(** [enableCEXMode(cexName, reload = true)] *)
Definition enableCEXMode (cexName : string) (reload : bool) (w : Window) : Window :=
  if cexName =? "" then w else
  let sel := Str.toUpperCase cexName in
  let w := set_manager (VBool true) (VStr sel) w in
  let w := saveState w in
  let url := params_set "cex" (Str.toLowerCase sel) (params_delete "chain" (search w)) in
  let w := pushState url w in
  let w := invalidateAppModeCache w in
  let w := applyTheme sel w in
  let w := updateUI w in
  let w := emit (EvToast ("Mode Per CEX Aktif: " +:+ sel)) w in
  let w := if reload then emit EvRefreshTokensTable w else w in
  refreshSignalCards w.

(** [disableCEXMode(reload = true)] *)
Definition disableCEXMode (reload : bool) (w : Window) : Window :=
  let w := set_manager (VBool false) VNull w in
  let w := saveState w in
  let url := params_delete "cex" (search w) in
  let w := pushState url w in
  let w := invalidateAppModeCache w in
  let w := resetTheme w in
  let w := updateUI w in
  let w := emit (EvToast "Mode Per CEX Dinonaktifkan") w in
  let w := if reload then emit EvRefreshTokensTable w else w in
  refreshSignalCards w.

(** [toggleCEXMode(cexName)] *)
Definition toggleCEXMode (cexName : string) (w : Window) : Window :=
  if truthy (active w) && strictEqStr (selectedCEX w) cexName
  then disableCEXMode true w
  else enableCEXMode cexName true w.

Definition setupURLMonitoring (w : Window) : Window := set_monitoring true w.

Definition renderToolbar (w : Window) : Window := emit EvRenderToolbar w.

(** [init()] *)
Definition init (w : Window) : Window :=
  let cexParam := default "" (params_get (search w) "cex") in
  let w :=
    if negb (cexParam =? "") then
      emit (EvSetTimeout 50 TaskRefreshAfterInit)
           (enableCEXMode (Str.toUpperCase cexParam) false w)
    else if truthy (active w) && truthy (selectedCEX w) then disableCEXMode false w
    else w in
  renderToolbar (setupURLMonitoring w).

(** [checkURLAndUpdateMode()] *)
Definition checkURLAndUpdateMode (w : Window) : Window :=
  let cexParam := default "" (params_get (search w) "cex") in
  if negb (cexParam =? "") then
    let cexUpper := Str.toUpperCase cexParam in
    if negb (truthy (active w)) || negb (strictEqStr (selectedCEX w) cexUpper)
    then enableCEXMode cexUpper false w
    else w
  else if truthy (active w) then
    emit (EvSetTimeout 50 TaskApplyThemeForMode) (disableCEXMode false w)
  else w.

(** The browser moves to another history entry and fires [popstate]. *)
Definition popstate (q : URLSearchParams) (w : Window) : Window :=
  checkURLAndUpdateMode (set_search q w).

(** A timer fires. *)
Definition runTask (t : Task) (w : Window) : Window :=
  match t with
  | TaskCheckURL => checkURLAndUpdateMode w
  | TaskApplyThemeForMode => applyThemeForMode w
  | TaskRefreshAfterInit =>
      emit EvApplySortToggleState (emit EvRenderFilterCard (emit EvRefreshTokensTable w))
  end.

Definition isCEXMode (w : Window) : value := active w.
Definition getSelectedCEX (w : Window) : value := selectedCEX w.

End CEXModeManager.

(** [getActiveFilterForMode()] *)
Definition getActiveFilterForMode (w : Window) : option value :=
  if truthy (CEXModeManager.isCEXMode w)
  then getFilterCEX (CEXModeManager.getSelectedCEX w) w
  else getFilterMulti w.

(** The controller's state invariant: an exchange is selected exactly when
    the controller is active. *)
Definition CexModeState_inv (w : Window) : Prop :=
  selectedCEX w <> VNull <-> active w = VBool true.

(** The same test on a persisted record. *)
Definition persisted_ok (stored : value) : Prop :=
  truthy (getProp stored "selectedCEX") = true <-> getProp stored "active" = VBool true.

(* ===================================================================== *)
(** ** utils/helpers/app-state.js: tokens of the active mode              *)
(* ===================================================================== *)

(** [Array.isArray(v)] *)
Definition isArray (v : value) : bool :=
  match v with
  | VArr _ => true
  | _ => false
  end.

(** [a && b] *)
Definition and_ (a b : value) : value := if truthy a then b else a.

(** [getActiveTokens(defaultVal = [])] *)
Definition getActiveTokens (defaultVal : value) (w : Window) : value * Window :=
  let (key, w') := getActiveTokenKey w in
  (or (getFromLocalStorage key defaultVal (storage w')) defaultVal, w').

(** [saveActiveTokens(list)] *)
Definition saveActiveTokens (list : value) (w : Window) : Window :=
  let (key, w') := getActiveTokenKey w in
  set_storage
    (saveToLocalStorage key (if isArray list then list else VArr []) (storage w')) w'.

(* ===================================================================== *)
(** ** utils/chain-toggle-helpers.js and the CEX helpers                  *)
(* ===================================================================== *)

(** [registry && registry[key]], the test both helper families filter
    with; a property key that is not a string is converted with
    [String]. *)
Definition registryEntry (registry : value) (key : value) : value :=
  and_ registry (getProp registry (String_ key)).

(** [arr.includes(s)] for a string [s]. *)
Definition includes (items : list value) (s : string) : bool :=
  existsb (fun x => strictEqStr x s) items.

(** [getEnabledChains()]; nothing in its [try] block throws. *)
Definition getEnabledChains (w : Window) : list value :=
  let enabledChains := getFromLocalStorage "ENABLED_CHAINS" VNull (storage w) in
  if negb (truthy enabledChains) || negb (isArray enabledChains) then []
  else
    match enabledChains with
    | VArr items =>
        List.filter (fun chain => truthy (registryEntry (CONFIG_CHAINS w) chain)) items
    | _ => []
    end.

(** [isChainEnabled(chainKey)] *)
Definition isChainEnabled (chainKey : value) (w : Window) : bool :=
  if negb (truthy chainKey) then false
  else
    let enabledChains := getEnabledChains w in
    let keyLower := Str.toLowerCase (String_ chainKey) in
    includes enabledChains keyLower.

(** [saveEnabledChains(enabledChains)] *)
Definition saveEnabledChains (enabledChains : value) (w : Window) : Window :=
  match enabledChains with
  | VArr items =>
      let normalizedChains :=
        List.filter (fun chain => truthy (registryEntry (CONFIG_CHAINS w) chain))
                    (map lowerOf items) in
      set_storage (saveToLocalStorage "ENABLED_CHAINS" (VArr normalizedChains) (storage w)) w
  | _ => w
  end.

(** [getEnabledCEXs()] *)
Definition getEnabledCEXs (w : Window) : list value :=
  let enabledCEXs := getFromLocalStorage "ENABLED_CEXS" VNull (storage w) in
  if negb (truthy enabledCEXs) || negb (isArray enabledCEXs) then []
  else
    match enabledCEXs with
    | VArr items =>
        List.filter (fun cex => truthy (registryEntry (CONFIG_CEX w) cex)) items
    | _ => []
    end.

(** [isCEXEnabled(cexKey)] *)
Definition isCEXEnabled (cexKey : value) (w : Window) : bool :=
  includes (getEnabledCEXs w) (Str.toUpperCase (String_ cexKey)).

(** [saveEnabledCEXs(enabledCEXs)] *)
Definition saveEnabledCEXs (enabledCEXs : value) (w : Window) : Window :=
  match enabledCEXs with
  | VArr items =>
      let validCEXs :=
        List.filter (fun cex => truthy (registryEntry (CONFIG_CEX w) cex)) items in
      set_storage (saveToLocalStorage "ENABLED_CEXS" (VArr validCEXs) (storage w)) w
  | _ => w
  end.

(* ===================================================================== *)
(** ** class CEXModeManager: themes and the token view                    *)
(* ===================================================================== *)


(** [arr.filter(p)] for a callback that may throw. *)
Fixpoint filterM (p : value -> option bool) (items : list value) : option (list value) :=
  match items with
  | [] => Some []
  | x :: rest =>
      match p x with
      | Some b =>
          rest' ← filterM p rest;
          Some (if b then x :: rest' else rest')
      | None => None
      end
  end.

(** [token.cex] throws on [null] and [undefined]. *)
Definition tokenCex (token : value) : option value :=
  match token with
  | VUndef | VNull => None
  | _ => Some (getProp token "cex")
  end.

(** [getEnabledTokensPerCEX(cexName)], given what
    [window.getAllChainTokensFlat()] returns (the empty list when that
    collaborator is absent).  [None] is the rejected promise. *)
Definition getEnabledTokensPerCEX (cexName : string) (allFlat : list value)
  : option (list value) :=
  if cexName =? "" then Some []
  else
    let targetCEX := Str.toUpperCase cexName in
    filterM (fun token =>
               c ← tokenCex token;
               Some (Str.toUpperCase (String_ (or c (VStr ""))) =? targetCEX))
            allFlat.

(* ===================================================================== *)
(** ** Vocabulary of the statements                                      *)
(* ===================================================================== *)

Import CEXModeManager.

(** A chain registry in the shape the code expects: chain key to an entry
    with a display name. *)
Definition sampleChains : value :=
  VObj [ ("bsc", VObj [("Nama_Chain", VStr "bsc")]);
         ("ethereum", VObj [("Nama_Chain", VStr "erc")]) ].

(** A freshly loaded page with the given query and store. *)
Definition page (q : URLSearchParams) (s : gmap string value) : Window :=
  mkWindow q None sampleChains (VObj []) (VObj []) s [] false (VBool false) VNull [].

(** The three variants exclude one another. *)
Definition exactly_one_variant (m : Mode) : Prop :=
  (m = Multi /\ (forall c, m <> Single c) /\ (forall e, m <> Cex e)) \/
  ((exists c, m = Single c) /\ m <> Multi /\ (forall e, m <> Cex e)) \/
  ((exists e, m = Cex e) /\ m <> Multi /\ (forall c, m <> Single c)).

(** The filter keys of a chain mode, an exchange mode and the aggregate
    mode differ from one another. *)
Definition filterKeys_distinct (c e : string) : Prop :=
  filterKey (Single c) <> filterKey (Cex e) /\
  filterKey (Single c) <> filterKey Multi /\
  filterKey (Cex e) <> filterKey Multi.

(** The guarded assignments of a setter, in source order. *)
Definition multiFields : list (string * (value -> value)) :=
  [("chains", lowerOf); ("cex", upperOf); ("dex", lowerOf); ("pair", upperOf)].

Definition chainFields : list (string * (value -> value)) :=
  [("cex", stringOf); ("pair", upperOf); ("dex", lowerOf)].

Fixpoint mergeAll (fields : list (string * (value -> value))) (val : value)
    (next : list (string * value)) : option (list (string * value)) :=
  match fields with
  | [] => Some next
  | (k, norm) :: fs => next' ← mergeField k norm val next; mergeAll fs val next'
  end.

(** What the setters read as the previous record under [key]. *)
Definition prevRecord (key : string) (w : Window) : list (string * value) :=
  spread (or (getFromLocalStorage key (VObj []) (storage w)) (VObj [])).

Definition writeRecord (key : string) (next : list (string * value)) (w : Window) : Window :=
  set_storage (saveToLocalStorage key (VObj next) (storage w)) w.

Definition chainFilterKey (chain : value) : string :=
  "FILTER_" +:+ Str.toUpperCase (String_ chain).

(** A field of the input that the setters can map over: an array, or a
    falsy value (which they replace by the empty array). *)
Definition arrayOrFalsy (v : value) : bool :=
  match v with
  | VArr _ => true
  | _ => negb (truthy v)
  end.

Definition itemsOf (v : value) : list value :=
  match v with
  | VArr items => items
  | _ => []
  end.

(** A partial filter record: every field it may carry can be mapped. *)
Definition partialRecord (fields : list (string * (value -> value))) (val : value) : Prop :=
  forall k norm, In (k, norm) fields -> arrayOrFalsy (getProp val k) = true.

(** The input carries field [k]. *)
Definition present (val : value) (k : string) : bool :=
  truthy val && hasOwnProperty val k.

Fixpoint fieldNorm (fields : list (string * (value -> value))) (k : string)
  : option (value -> value) :=
  match fields with
  | [] => None
  | (k', norm) :: fs => if k' =? k then Some norm else fieldNorm fs k
  end.

(** Field [k] of the merged record: the normalised input where the input
    carries a field of the scope, the previous content everywhere else. *)
Definition mergedField (fields : list (string * (value -> value))) (val : value)
    (prev : list (string * value)) (k : string) : option value :=
  match fieldNorm fields k with
  | Some norm =>
      if present val k then Some (VArr (map norm (itemsOf (getProp val k))))
      else getOwn prev k
  | None => getOwn prev k
  end.

(** The names of [fields] are pairwise different. *)
Fixpoint distinctFields (fields : list (string * (value -> value))) : Prop :=
  match fields with
  | [] => True
  | (k, _) :: fs => fieldNorm fs k = None /\ distinctFields fs
  end.

Definition dexUniswap : value := VObj [("dex", VArr [VStr "uniswap"])].
Definition pairETHUSDT : value := VObj [("pair", VArr [VStr "ETHUSDT"])].

(** A setter that is a [mergeAll] of [fields] into the record under [key]. *)
Definition writer (fields : list (string * (value -> value))) (key : string)
    (val : value) (w : Window) : option Window :=
  next ← mergeAll fields val (prevRecord key w); Some (writeRecord key next w).

(** A stored aggregate record with a sort order and a pair selection. *)
Definition storedMulti : value :=
  VObj [("sort", VStr "A"); ("pair", VArr [VStr "BTCUSDT"]); ("pnl", VNum 5)].

(** A string value in lower case, in upper case. *)
Definition isLowerStr (v : value) : Prop :=
  exists s, v = VStr s /\ Str.toLowerCase s = s.
Definition isUpperStr (v : value) : Prop :=
  exists s, v = VStr s /\ Str.toUpperCase s = s.

(** What a getter does with each field of a stored record [f]. *)
Definition asStored (f : value) (k : string) : value := or (getProp f k) (VArr []).
Definition mapped (norm : value -> value) (f : value) (k : string) : value :=
  VArr (map norm (itemsOf (getProp f k))).

(** Stores with an exchange written in lower case. *)
Definition lowerCexStore (key : string) : gmap string value :=
  {[ key := VObj [("cex", VArr [VStr "binance"]); ("chains", VArr [VStr "BSC"])] ]}.

Definition mixedCaseStore : gmap string value :=
  {[ "FILTER_MULTICHAIN" :=
       VObj [("cex", VArr [VStr "binance"]); ("dex", VArr [VStr "UniSwap"]);
             ("pair", VArr [VStr "ethusdt"])] ]}.

(** The legacy name [getFilterChain] derives from the registry. *)
Definition legacyNameOf (chainKey : string) (w : Window) : string :=
  Str.toUpperCase
    (String_ (or (getPropOpt (getPropOpt (CONFIG_CHAINS w) chainKey) "Nama_Chain")
                 (VStr ""))).

(** What [getFilterChain] returns for a record [f]. *)
Definition readChainRecord (f : value) : option value :=
  cex ← mapField stringOf f "cex";
  pair ← mapField upperOf f "pair";
  dex ← mapField lowerOf f "dex";
  Some (VObj [("cex", cex); ("pair", pair); ("dex", dex)]).

Definition legacyStore : gmap string value :=
  {[ "FILTER_ERC" := VObj [("cex", VArr [VStr "gate"]); ("dex", VArr [VStr "KyberSwap"])] ]}.

(** What the controller has persisted. *)
Definition persisted (a s : value) : value :=
  VObj [("active", a); ("selectedCEX", s)].

(** The URL [enableCEXMode] and [disableCEXMode] push. *)
Definition enableURL (sel : string) (q : URLSearchParams) : URLSearchParams :=
  params_set "cex" (Str.toLowerCase sel) (params_delete "chain" q).
Definition disableURL (q : URLSearchParams) : URLSearchParams :=
  params_delete "cex" q.

(** How often the table refresh has been called. *)
Definition refreshes (w : Window) : nat :=
  length (List.filter (fun e => match e with EvRefreshTokensTable => true | _ => false end)
                      (events w)).

(** The page [?cex=okx] before the controller has picked it up, and a
    controller that is active for OKX on a page whose query has lost the
    [cex] parameter. *)
Definition urlAhead : Window := page [("cex", "okx")] ∅.

Definition stateAhead : Window :=
  mkWindow [("chain", "bsc")] None sampleChains (VObj []) (VObj [])
           {[ STORAGE_KEY := persisted (VBool true) (VStr "OKX") ]}
           [] true (VBool true) (VStr "OKX") [].

(** A record with [active: true] and no exchange. *)
Definition brokenStore : gmap string value :=
  {[ STORAGE_KEY := persisted (VBool true) VNull ]}.

(** A mode as [getAppMode] builds it: an exchange is non-empty, trimmed
    and in upper case; a chain is in lower case, is not the sentinel and
    has a truthy entry in the registry. *)
Definition modeWellFormed (registry : value) (m : Mode) : Prop :=
  match m with
  | Multi => True
  | Single c =>
      c <> "" /\ c <> "all" /\ Str.toLowerCase c = c /\
      truthy (getProp registry c) = true
  | Cex e => e <> "" /\ Str.toUpperCase e = e /\ Str.trim e = e
  end.

(** The value of a query parameter, [""] when it is missing. *)
Definition param (name : string) (w : Window) : string :=
  default "" (params_get (search w) name).

(** The modes that read and write the aggregate token pool. *)
Definition aggregate (m : Mode) : Prop :=
  match m with
  | Single _ => False
  | _ => True
  end.

(** What [saveActiveTokens] stores for an argument. *)
Definition tokensToStore (list : value) : value :=
  if isArray list then list else VArr [].

(** The mapped fields of the exchange-scope setter, in source order. *)
Definition cexFields : list (string * (value -> value)) :=
  [("chains", lowerOf); ("pair", upperOf); ("dex", lowerOf)].

Definition cexFilterKey (cexName : value) : string :=
  "FILTER_CEX_" +:+ Str.toUpperCase (String_ cexName).

(** The last assignment of [setFilterCEX]: [sort] is stored as given. *)
Definition sortStep (val : value) (next : list (string * value)) : list (string * value) :=
  if present val "sort" then setProp "sort" (getProp val "sort") next else next.

(** Field [k] of the record [setFilterCEX] stores. *)
Definition mergedFieldCEX (val : value) (prev : list (string * value)) (k : string)
  : option value :=
  if (k =? "sort") && present val "sort" then Some (getProp val "sort")
  else mergedField cexFields val prev k.

(** The normalised content of field [k] of an input. *)
Definition normalised (norm : value -> value) (val : value) (k : string) : value :=
  VArr (map norm (itemsOf (getProp val k))).

(** The registry has a truthy entry under the key. *)
Definition chainValid (w : Window) (chain : value) : bool :=
  truthy (registryEntry (CONFIG_CHAINS w) chain).
Definition cexValid (w : Window) (cex : value) : bool :=
  truthy (registryEntry (CONFIG_CEX w) cex).

(** A controller state as the transitions leave it: inactive with no
    exchange, or active with a non-empty exchange name. *)
Definition CexModeState_wf (w : Window) : Prop :=
  (active w = VBool false /\ selectedCEX w = VNull) \/
  (active w = VBool true /\ exists s, s <> "" /\ selectedCEX w = VStr s).

(** The persisted record mirrors the controller's state. *)
Definition mirrored (w : Window) : Prop :=
  storage w !! STORAGE_KEY = Some (persisted (active w) (selectedCEX w)).

(** The operations of the controller and the events that drive it. *)
Inductive Op : Type :=
| OpEnable (cexName : string) (reload : bool)
| OpDisable (reload : bool)
| OpToggle (cexName : string)
| OpInit
| OpCheckURL
| OpPopstate (q : URLSearchParams)
| OpTimer (t : Task).

Definition runOp (op : Op) (w : Window) : Window :=
  match op with
  | OpEnable cexName reload => enableCEXMode cexName reload w
  | OpDisable reload => disableCEXMode reload w
  | OpToggle cexName => toggleCEXMode cexName w
  | OpInit => init w
  | OpCheckURL => checkURLAndUpdateMode w
  | OpPopstate q => popstate q w
  | OpTimer t => runTask t w
  end.

Definition runOps (ops : list Op) (w : Window) : Window :=
  fold_left (fun w op => runOp op w) ops w.

(** How an operation may move the controller: not at all, or to a
    well-formed state that it persists under its own key. *)
Definition stepped (w w' : Window) : Prop :=
  (active w' = active w /\ selectedCEX w' = selectedCEX w /\ storage w' = storage w) \/
  (CexModeState_wf w' /\
   storage w' = <[STORAGE_KEY := persisted (active w') (selectedCEX w')]> (storage w)).

(** The token's [cex] field, as a string in upper case, is the exchange
    name in upper case. *)
Definition tokenOnCex (cexName : string) (token : value) : bool :=
  Str.toUpperCase (String_ (or (getProp token "cex") (VStr ""))) =? Str.toUpperCase cexName.

(** A token record a property can be read from. *)
Definition readable (token : value) : Prop := token <> VUndef /\ token <> VNull.

(* ===================================================================== *)
(** ** Mode resolution                                                    *)
(* ===================================================================== *)

Example resolve_single_bsc :
  fst (getAppMode (page [("chain", "bsc")] ∅)) = Single "bsc".
Proof. reflexivity. Qed.

Example resolve_chain_all :
  fst (getAppMode (page [("chain", "ALL")] ∅)) = Multi.
Proof. reflexivity. Qed.

Example resolve_cex_over_chain :
  fst (getAppMode (page [("cex", "gate"); ("chain", "ethereum")] ∅)) = Cex "GATE".
Proof. reflexivity. Qed.

Example resolve_unknown_chain :
  fst (getAppMode (page [("chain", "nosuchchain")] ∅)) = Multi.
Proof. reflexivity. Qed.

Example resolve_blank_cex :
  fst (getAppMode (page [("cex", "  "); ("chain", "bsc")] ∅)) = Single "bsc".
Proof. reflexivity. Qed.

Lemma eqb_empty_false (s : string) : s <> "" -> (s =? "") = false.
Proof. intros H. apply String.eqb_neq. exact H. Qed.

Lemma resolveMode_cex (w : Window) (v : string) :
  params_get (search w) "cex" = Some v ->
  Str.trim v <> "" ->
  resolveMode w = Cex (Str.toUpperCase (Str.trim v)).
Proof.
  intros Hget Hne. unfold resolveMode. rewrite Hget. simpl.
  rewrite (eqb_empty_false _ Hne). reflexivity.
Qed.

Lemma getAppMode_fresh (w : Window) :
  AppMode w = None ->
  getAppMode w = (resolveMode w, set_AppMode (Some (resolveMode w)) w).
Proof. intros H. unfold getAppMode. rewrite H. reflexivity. Qed.

Lemma getAppMode_cached (w : Window) (m : Mode) :
  AppMode w = Some m -> getAppMode w = (m, w).
Proof. intros H. unfold getAppMode. rewrite H. reflexivity. Qed.

Lemma Mode_exactly_one (m : Mode) : exactly_one_variant m.
Proof.
  destruct m as [|c|e].
  - left. repeat split; intros; discriminate.
  - right; left. repeat split; [exists c; reflexivity | discriminate | intros; discriminate].
  - right; right. repeat split; [exists e; reflexivity | discriminate | intros; discriminate].
Qed.

(** C1.  [getAppMode] always answers with exactly one of the variants
    Multi, Single and Cex; and when nothing is cached and the query has a
    [cex] parameter whose trimmed value is not empty, the answer is [Cex]
    of that value in upper case, whatever the [chain] parameter and the
    registries hold. *)
Theorem getAppMode_cex_precedence :
  (forall w : Window, exactly_one_variant (fst (getAppMode w))) /\
  (forall (w : Window) (v : string),
      AppMode w = None ->
      params_get (search w) "cex" = Some v ->
      Str.trim v <> "" ->
      fst (getAppMode w) = Cex (Str.toUpperCase (Str.trim v))).
Proof.
  split.
  - intros w. apply Mode_exactly_one.
  - intros w v Hc Hget Hne.
    rewrite (getAppMode_fresh w Hc). simpl.
    apply resolveMode_cex; assumption.
Qed.

Lemma getAppMode_cex_precedence_witness :
  AppMode (page [("chain", "ethereum"); ("cex", " Gate ")] ∅) = None /\
  params_get (search (page [("chain", "ethereum"); ("cex", " Gate ")] ∅)) "cex"
    = Some " Gate " /\
  Str.trim " Gate " <> "" /\
  fst (getAppMode (page [("chain", "ethereum"); ("cex", " Gate ")] ∅)) = Cex "GATE".
Proof.
  split; [reflexivity|]. split; [reflexivity|]. split; [discriminate|].
  exact (proj2 getAppMode_cex_precedence
           (page [("chain", "ethereum"); ("cex", " Gate ")] ∅) " Gate "
           eq_refl eq_refl ltac:(discriminate)).
Defined.

(** A chain value that is neither empty, nor [all], nor an own key of the
    registry, nor a name every object inherits, resolves to Multi. *)
Lemma getAppMode_unknown_chain (w : Window) (props : list (string * value)) :
  AppMode w = None ->
  Str.trim (default "" (params_get (search w) "cex")) = "" ->
  CONFIG_CHAINS w = VObj props ->
  let chainParam := Str.toLowerCase (default "" (params_get (search w) "chain")) in
  getOwn props chainParam = None ->
  getOwn Object_prototype chainParam = None ->
  fst (getAppMode w) = Multi.
Proof.
  intros Hc Hcex Hreg chainParam Hown Hproto.
  rewrite (getAppMode_fresh w Hc). simpl.
  unfold resolveMode. rewrite Hcex. fold chainParam.
  rewrite Hreg. unfold getProp. rewrite Hown, Hproto.
  cbn [negb String.eqb default truthy andb].
  destruct ((chainParam =? "") || (chainParam =? "all")); reflexivity.
Qed.

(** C2.  With an ordinary object as chain registry, the query
    [?chain=constructor] has no [cex] parameter and a chain value that is
    neither empty, nor [all], nor a key of the registry; [getAppMode]
    answers [Single "constructor"], not Multi, because the registry lookup
    reaches the property every object inherits. *)
Theorem getAppMode_inherited_name_is_single :
  let w := page [("chain", "constructor")] ∅ in
  params_get (search w) "cex" = None /\
  Str.toLowerCase "constructor" <> "" /\
  Str.toLowerCase "constructor" <> "all" /\
  hasOwnProperty (CONFIG_CHAINS w) (Str.toLowerCase "constructor") = false /\
  fst (getAppMode w) = Single "constructor" /\
  fst (getAppMode w) <> Multi.
Proof.
  cbv zeta. repeat split; try reflexivity; discriminate.
Qed.

(* ===================================================================== *)
(** ** The mode cache                                                     *)
(* ===================================================================== *)

Lemma getAppMode_fills_cache (w : Window) :
  AppMode (snd (getAppMode w)) = Some (fst (getAppMode w)).
Proof.
  unfold getAppMode. destruct (AppMode w) as [m|] eqn:E; simpl; [exact E | reflexivity].
Qed.

Lemma getAppMode_after_cached (qs : list URLSearchParams) (w : Window) (m : Mode) :
  AppMode w = Some m ->
  fst (getAppMode_after qs w) = repeat m (length qs) /\
  AppMode (snd (getAppMode_after qs w)) = Some m.
Proof.
  revert w. induction qs as [|q qs IH]; intros w H; simpl.
  - split; [reflexivity | exact H].
  - rewrite (getAppMode_cached (set_search q w) m H).
    destruct (IH (set_search q w) H) as [IH1 IH2].
    destruct (getAppMode_after qs (set_search q w)) as [ms w2]. simpl in *.
    rewrite IH1. split; [reflexivity | exact IH2].
Qed.

Lemma AppMode_set_search (q : URLSearchParams) (w : Window) :
  AppMode (set_search q w) = AppMode w.
Proof. reflexivity. Qed.

(** C3.  Once [getAppMode] has answered [m], every further call answers
    [m] again, whatever the query has been changed to before each call, and
    the cache keeps holding [m]; [invalidateAppModeCache] empties the cache
    whatever it held, and the next call then answers the mode resolved from
    the query of that moment and caches it. *)
Theorem getAppMode_cached_until_invalidated (w : Window) (qs : list URLSearchParams) :
  let m := fst (getAppMode w) in
  let w1 := snd (getAppMode w) in
  let w2 := snd (getAppMode_after qs w1) in
  fst (getAppMode_after qs w1) = repeat m (length qs) /\
  AppMode w2 = Some m /\
  AppMode (invalidateAppModeCache w2) = None /\
  getAppMode (invalidateAppModeCache w2)
    = (resolveMode w2, set_AppMode (Some (resolveMode w2)) w2).
Proof.
  intros m w1 w2.
  destruct (getAppMode_after_cached qs w1 m (getAppMode_fills_cache w)) as [H1 H2].
  split; [exact H1|]. split; [exact H2|]. split; reflexivity.
Qed.

Example stale_mode_until_invalidated :
  let w1 := set_search [("cex", "gate")] (snd (getAppMode (page [("chain", "bsc")] ∅))) in
  fst (getAppMode w1) = Single "bsc" /\
  fst (getAppMode (invalidateAppModeCache w1)) = Cex "GATE".
Proof. split; reflexivity. Qed.

(* ===================================================================== *)
(** ** Key derivation                                                     *)
(* ===================================================================== *)

Lemma getActiveTokenKey_tokenKey (w : Window) :
  fst (getActiveTokenKey w) = tokenKey (fst (getAppMode w)).
Proof. unfold getActiveTokenKey. destruct (getAppMode w). reflexivity. Qed.


Example keys_single_bsc :
  fst (getActiveTokenKey (page [("chain", "bsc")] ∅)) = "TOKEN_BSC" /\
  fst (getActiveFilterKey (page [("chain", "bsc")] ∅)) = "FILTER_BSC".
Proof. split; reflexivity. Qed.

Example keys_cex_gate :
  fst (getActiveTokenKey (page [("cex", "gate"); ("chain", "ethereum")] ∅))
    = "TOKEN_MULTICHAIN" /\
  fst (getActiveFilterKey (page [("cex", "gate"); ("chain", "ethereum")] ∅))
    = "FILTER_CEX_GATE".
Proof. split; reflexivity. Qed.

(** C4.  Every exchange mode shares the token key of the aggregate mode,
    the fixed key TOKEN_MULTICHAIN, and a chain mode has the key TOKEN_
    followed by the chain in upper case; [getActiveTokenKey] answers the
    key of the mode [getAppMode] reads. *)
Theorem tokenKey_aggregate_shared :
  (forall e : string, tokenKey (Cex e) = tokenKey Multi) /\
  tokenKey Multi = "TOKEN_MULTICHAIN" /\
  (forall c : string, tokenKey (Single c) = "TOKEN_" +:+ Str.toUpperCase c) /\
  (forall w : Window, fst (getActiveTokenKey w) = tokenKey (fst (getAppMode w))).
Proof.
  repeat split. apply getActiveTokenKey_tokenKey.
Qed.

Lemma filterKey_cex_not_multi (e : string) : filterKey (Cex e) <> filterKey Multi.
Proof. simpl. discriminate. Qed.

Lemma filter_prefix_inj (a b : string) : "FILTER_" +:+ a = "FILTER_" +:+ b -> a = b.
Proof. simpl. intros H. injection H. trivial. Qed.

(** The chain keys that collide, exactly. *)
Lemma filterKeys_distinct_iff (c e : string) :
  filterKeys_distinct c e <->
  Str.toUpperCase c <> "MULTICHAIN" /\
  Str.toUpperCase c <> "CEX_" +:+ Str.toUpperCase e.
Proof.
  unfold filterKeys_distinct. split.
  - intros (Hce & Hcm & _). split; intros E; [apply Hcm | apply Hce];
      simpl; rewrite E; reflexivity.
  - intros (Hm & Hx). split; [|split].
    + intros E. apply Hx. apply filter_prefix_inj. exact E.
    + intros E. apply Hm. apply filter_prefix_inj. exact E.
    + apply filterKey_cex_not_multi.
Qed.

(** C5, as stated, fails: the chain key [multichain] shares the filter key
    of the aggregate mode. *)
Lemma filterKeys_collide_multichain : ~ (forall c e : string, filterKeys_distinct c e).
Proof.
  intros H. destruct (H "multichain" "binance") as (_ & Hcm & _).
  apply Hcm. reflexivity.
Qed.

Example filterKeys_collide_cex_prefix :
  filterKey (Single "cex_binance") = filterKey (Cex "binance").
Proof. reflexivity. Qed.

(** C5, amended.  For a chain key whose upper-case form is neither
    MULTICHAIN nor CEX_ followed by the exchange in upper case, the filter
    keys of the chain mode, the exchange mode and the aggregate mode are
    pairwise distinct. *)
Theorem filterKeys_pairwise_distinct (c e : string) :
  Str.toUpperCase c <> "MULTICHAIN" ->
  Str.toUpperCase c <> "CEX_" +:+ Str.toUpperCase e ->
  filterKeys_distinct c e.
Proof.
  intros Hm Hx. apply filterKeys_distinct_iff. split; assumption.
Qed.

Lemma filterKeys_pairwise_distinct_witness :
  Str.toUpperCase "bsc" <> "MULTICHAIN" /\
  Str.toUpperCase "bsc" <> "CEX_" +:+ Str.toUpperCase "BINANCE" /\
  filterKeys_distinct "bsc" "BINANCE".
Proof.
  split; [discriminate|]. split; [discriminate|].
  apply (filterKeys_pairwise_distinct "bsc" "BINANCE"); discriminate.
Defined.

(* ===================================================================== *)
(** ** Property lists                                                     *)
(* ===================================================================== *)

Lemma getOwn_setProp (k k' : string) (v : value) (props : list (string * value)) :
  getOwn (setProp k v props) k' = if k =? k' then Some v else getOwn props k'.
Proof.
  induction props as [|[k0 v0] rest IH]; simpl.
  - reflexivity.
  - destruct (k0 =? k) eqn:E0; simpl.
    + apply String.eqb_eq in E0. subst k0.
      destruct (k =? k'); reflexivity.
    + destruct (k0 =? k') eqn:E1.
      * apply String.eqb_eq in E1. subst k0.
        rewrite String.eqb_sym, E0. reflexivity.
      * exact IH.
Qed.

Lemma getOwn_setProp_eq (k : string) (v : value) (props : list (string * value)) :
  getOwn (setProp k v props) k = Some v.
Proof. rewrite getOwn_setProp, String.eqb_refl. reflexivity. Qed.

Lemma getOwn_setProp_ne (k k' : string) (v : value) (props : list (string * value)) :
  k <> k' -> getOwn (setProp k v props) k' = getOwn props k'.
Proof.
  intros H. rewrite getOwn_setProp.
  apply String.eqb_neq in H. rewrite H. reflexivity.
Qed.

(** Assigning the value a property already has changes nothing. *)
Lemma setProp_same (k : string) (v : value) (props : list (string * value)) :
  getOwn props k = Some v -> setProp k v props = props.
Proof.
  induction props as [|[k0 v0] rest IH]; simpl; [discriminate|].
  destruct (k0 =? k) eqn:E0.
  - apply String.eqb_eq in E0. subst k0. intros [= ->]. reflexivity.
  - intros H. rewrite (IH H). reflexivity.
Qed.

(* ===================================================================== *)
(** ** Merge-on-write                                                     *)
(* ===================================================================== *)

Lemma setFilterMulti_mergeAll (val : value) (w : Window) :
  setFilterMulti val w =
  (next ← mergeAll multiFields val (prevRecord "FILTER_MULTICHAIN" w);
   Some (writeRecord "FILTER_MULTICHAIN" next w)).
Proof.
  unfold setFilterMulti, prevRecord, writeRecord. simpl.
  destruct (mergeField "chains" _ _ _) as [n1|]; simpl; [|reflexivity].
  destruct (mergeField "cex" _ _ _) as [n2|]; simpl; [|reflexivity].
  destruct (mergeField "dex" _ _ _) as [n3|]; simpl; [|reflexivity].
  destruct (mergeField "pair" _ _ _) as [n4|]; reflexivity.
Qed.

Lemma setFilterChain_mergeAll (chain val : value) (w : Window) :
  setFilterChain chain val w =
  (next ← mergeAll chainFields val (prevRecord (chainFilterKey chain) w);
   Some (writeRecord (chainFilterKey chain) next w)).
Proof.
  unfold setFilterChain, prevRecord, writeRecord, chainFilterKey. simpl.
  destruct (mergeField "cex" _ _ _) as [n1|]; simpl; [|reflexivity].
  destruct (mergeField "pair" _ _ _) as [n2|]; simpl; [|reflexivity].
  destruct (mergeField "dex" _ _ _) as [n3|]; reflexivity.
Qed.

Lemma mapField_arrayOrFalsy (norm : value -> value) (val : value) (k : string) :
  arrayOrFalsy (getProp val k) = true ->
  mapField norm val k = Some (VArr (map norm (itemsOf (getProp val k)))).
Proof.
  unfold mapField, or. destruct (getProp val k); simpl; try discriminate;
    try reflexivity.
  - destruct b; [discriminate | reflexivity].
  - destruct (n =? 0)%Z; [reflexivity | discriminate].
  - destruct (s =? ""); [reflexivity | discriminate].
Qed.

Lemma mergeField_other (k k' : string) (norm : value -> value) (val : value)
    (next next' : list (string * value)) :
  mergeField k norm val next = Some next' -> k <> k' ->
  getOwn next' k' = getOwn next k'.
Proof.
  unfold mergeField. intros H Hne.
  destruct (truthy val && hasOwnProperty val k).
  - destruct (mapField norm val k) as [arr|]; simpl in H; [|discriminate].
    injection H as <-. apply getOwn_setProp_ne. exact Hne.
  - injection H as <-. reflexivity.
Qed.

Lemma mergeAll_other (fields : list (string * (value -> value))) (val : value)
    (k : string) :
  fieldNorm fields k = None ->
  forall next next', mergeAll fields val next = Some next' ->
  getOwn next' k = getOwn next k.
Proof.
  induction fields as [|[k0 norm] fs IH]; simpl; intros Hk next next' H.
  - injection H as <-. reflexivity.
  - destruct (k0 =? k) eqn:E; [discriminate|].
    destruct (mergeField k0 norm val next) as [n1|] eqn:E1; simpl in H; [|discriminate].
    rewrite (IH Hk n1 next' H).
    apply (mergeField_other _ _ _ _ _ _ E1). apply String.eqb_neq. exact E.
Qed.

Lemma mergeAll_spec (fields : list (string * (value -> value))) (val : value) :
  distinctFields fields -> partialRecord fields val ->
  forall next, exists next',
    mergeAll fields val next = Some next' /\
    forall k, getOwn next' k = mergedField fields val next k.
Proof.
  induction fields as [|[k0 norm] fs IH]; intros Hd Hp next.
  - exists next. split; reflexivity.
  - destruct Hd as [Hfresh Hd].
    assert (Hp' : partialRecord fs val).
    { intros k n Hin. apply (Hp k n). right. exact Hin. }
    assert (H0 : arrayOrFalsy (getProp val k0) = true).
    { apply (Hp k0 norm). left. reflexivity. }
    set (n1 := if present val k0
               then setProp k0 (VArr (map norm (itemsOf (getProp val k0)))) next
               else next).
    assert (E1 : mergeField k0 norm val next = Some n1).
    { unfold mergeField, n1, present.
      destruct (truthy val && hasOwnProperty val k0); [|reflexivity].
      rewrite (mapField_arrayOrFalsy _ _ _ H0). reflexivity. }
    destruct (IH Hd Hp' n1) as (next' & E2 & Hget).
    exists next'. split.
    + simpl. rewrite E1. simpl. exact E2.
    + intros k. rewrite Hget. unfold mergedField. simpl.
      destruct (k0 =? k) eqn:E.
      * apply String.eqb_eq in E. subst k. rewrite Hfresh.
        unfold n1. destruct (present val k0); [apply getOwn_setProp_eq | reflexivity].
      * assert (Hn1 : getOwn n1 k = getOwn next k).
        { unfold n1. destruct (present val k0); [|reflexivity].
          apply getOwn_setProp_ne. apply String.eqb_neq. exact E. }
        destruct (fieldNorm fs k); [|exact Hn1].
        destruct (present val k); [reflexivity | exact Hn1].
Qed.

(** Writing the same input on top of its own result changes nothing. *)
Lemma mergeAll_again (fields : list (string * (value -> value))) (val : value) :
  distinctFields fields ->
  forall next next', mergeAll fields val next = Some next' ->
  mergeAll fields val next' = Some next'.
Proof.
  induction fields as [|[k0 norm] fs IH]; simpl; intros Hd next next' H.
  - reflexivity.
  - destruct Hd as [Hfresh Hd].
    destruct (mergeField k0 norm val next) as [n1|] eqn:E1; simpl in H; [|discriminate].
    assert (E2 : mergeField k0 norm val next' = Some next').
    { unfold mergeField in *.
      destruct (truthy val && hasOwnProperty val k0); [|reflexivity].
      destruct (mapField norm val k0) as [arr|]; simpl in *; [|discriminate].
      injection E1 as <-. f_equal. apply setProp_same.
      rewrite (mergeAll_other fs val k0 Hfresh _ _ H).
      apply getOwn_setProp_eq. }
    rewrite E2. simpl. exact (IH Hd n1 next' H).
Qed.

Lemma multiFields_distinct : distinctFields multiFields.
Proof. simpl. repeat split. Qed.

Lemma chainFields_distinct : distinctFields chainFields.
Proof. simpl. repeat split. Qed.

Lemma prevRecord_writeRecord (key : string) (next : list (string * value)) (w : Window) :
  prevRecord key (writeRecord key next w) = next.
Proof.
  unfold prevRecord, writeRecord, getFromLocalStorage, saveToLocalStorage. simpl.
  rewrite lookup_insert_eq. reflexivity.
Qed.

Lemma writeRecord_twice (key : string) (next : list (string * value)) (w : Window) :
  writeRecord key next (writeRecord key next w) = writeRecord key next w.
Proof.
  unfold writeRecord, saveToLocalStorage, set_storage. simpl.
  rewrite insert_insert_eq. reflexivity.
Qed.

Lemma storage_writeRecord (key : string) (next : list (string * value)) (w : Window) :
  storage (writeRecord key next w) !! key = Some (VObj next).
Proof. unfold writeRecord, saveToLocalStorage. simpl. apply lookup_insert_eq. Qed.

Lemma storage_writeRecord_other (key key' : string) (next : list (string * value))
    (w : Window) :
  key <> key' -> storage (writeRecord key next w) !! key' = storage w !! key'.
Proof.
  intros H. unfold writeRecord, saveToLocalStorage. simpl.
  apply lookup_insert_ne. exact H.
Qed.

Section Writer.
Variable fields : list (string * (value -> value)).
Variable key : string.
Hypothesis fields_distinct : distinctFields fields.

Lemma writer_merges (val : value) (w : Window) :
  partialRecord fields val ->
  exists next,
    writer fields key val w = Some (writeRecord key next w) /\
    forall k, getOwn next k = mergedField fields val (prevRecord key w) k.
Proof.
  intros Hp.
  destruct (mergeAll_spec fields val fields_distinct Hp (prevRecord key w))
    as (next & E & Hget).
  exists next. split; [|exact Hget].
  unfold writer. rewrite E. reflexivity.
Qed.

Lemma writer_idempotent (val : value) (w w1 : Window) :
  writer fields key val w = Some w1 -> writer fields key val w1 = Some w1.
Proof.
  unfold writer. intros H.
  destruct (mergeAll fields val (prevRecord key w)) as [next|] eqn:E;
    simpl in H; [|discriminate].
  injection H as <-.
  rewrite prevRecord_writeRecord.
  rewrite (mergeAll_again fields val fields_distinct _ _ E). simpl.
  rewrite writeRecord_twice. reflexivity.
Qed.

End Writer.

Ltac partial_record :=
  let k := fresh "k" in
  let norm := fresh "norm" in
  let Hin := fresh "Hin" in
  intros k norm Hin; simpl in Hin;
  repeat (destruct Hin as [Hin | Hin]; [injection Hin as <- <-; reflexivity |]);
  destruct Hin.

Lemma partialRecord_dexUniswap :
  partialRecord multiFields dexUniswap /\ partialRecord chainFields dexUniswap.
Proof. split; partial_record. Qed.

Lemma partialRecord_pairETHUSDT :
  partialRecord multiFields pairETHUSDT /\ partialRecord chainFields pairETHUSDT.
Proof. split; partial_record. Qed.

Lemma writer_dex_then_pair (fields : list (string * (value -> value))) (key : string) :
  distinctFields fields ->
  partialRecord fields dexUniswap -> partialRecord fields pairETHUSDT ->
  fieldNorm fields "dex" = Some lowerOf -> fieldNorm fields "pair" = Some upperOf ->
  forall w, exists w1 w2 r,
    writer fields key dexUniswap w = Some w1 /\
    writer fields key pairETHUSDT w1 = Some w2 /\
    storage w2 !! key = Some (VObj r) /\
    getOwn r "dex" = Some (VArr [VStr "uniswap"]) /\
    getOwn r "pair" = Some (VArr [VStr "ETHUSDT"]).
Proof.
  intros Hd Hp1 Hp2 Hdex Hpair w.
  destruct (writer_merges fields key Hd dexUniswap w Hp1) as (n1 & E1 & G1).
  destruct (writer_merges fields key Hd pairETHUSDT (writeRecord key n1 w) Hp2)
    as (n2 & E2 & G2).
  rewrite prevRecord_writeRecord in G2.
  exists (writeRecord key n1 w), (writeRecord key n2 (writeRecord key n1 w)), n2.
  split; [exact E1|]. split; [exact E2|]. split; [apply storage_writeRecord|].
  split.
  - rewrite G2. unfold mergedField. rewrite Hdex. simpl.
    rewrite G1. unfold mergedField. rewrite Hdex. reflexivity.
  - rewrite G2. unfold mergedField. rewrite Hpair. reflexivity.
Qed.

(** C6.  Filter writes merge.  For the aggregate scope and for every chain
    scope, writing a partial record (each field it carries an array, or a
    falsy value standing for the empty one) succeeds and stores a record in
    which every field of the scope that the input carries holds the
    normalised input and every other field holds what was stored before;
    writing the same input again leaves the store as the first write left
    it; and after writing [{dex:["uniswap"]}] and then [{pair:["ETHUSDT"]}]
    the stored record holds both. *)
Theorem filter_writes_merge :
  (forall (w : Window) (val : value),
      partialRecord multiFields val ->
      exists next,
        setFilterMulti val w = Some (writeRecord "FILTER_MULTICHAIN" next w) /\
        forall k, getOwn next k
                  = mergedField multiFields val (prevRecord "FILTER_MULTICHAIN" w) k) /\
  (forall (chain : value) (w : Window) (val : value),
      partialRecord chainFields val ->
      exists next,
        setFilterChain chain val w = Some (writeRecord (chainFilterKey chain) next w) /\
        forall k, getOwn next k
                  = mergedField chainFields val (prevRecord (chainFilterKey chain) w) k) /\
  (forall (w w1 : Window) (val : value),
      setFilterMulti val w = Some w1 -> setFilterMulti val w1 = Some w1) /\
  (forall (chain : value) (w w1 : Window) (val : value),
      setFilterChain chain val w = Some w1 -> setFilterChain chain val w1 = Some w1) /\
  (forall w : Window, exists w1,
      setFilterMulti dexUniswap w = Some w1 /\
      setFilterMulti dexUniswap w1 = Some w1) /\
  (forall (chain : value) (w : Window), exists w1,
      setFilterChain chain dexUniswap w = Some w1 /\
      setFilterChain chain dexUniswap w1 = Some w1) /\
  (forall w : Window, exists w1 w2 r,
      setFilterMulti dexUniswap w = Some w1 /\
      setFilterMulti pairETHUSDT w1 = Some w2 /\
      storage w2 !! "FILTER_MULTICHAIN" = Some (VObj r) /\
      getOwn r "dex" = Some (VArr [VStr "uniswap"]) /\
      getOwn r "pair" = Some (VArr [VStr "ETHUSDT"])) /\
  (forall (chain : value) (w : Window), exists w1 w2 r,
      setFilterChain chain dexUniswap w = Some w1 /\
      setFilterChain chain pairETHUSDT w1 = Some w2 /\
      storage w2 !! chainFilterKey chain = Some (VObj r) /\
      getOwn r "dex" = Some (VArr [VStr "uniswap"]) /\
      getOwn r "pair" = Some (VArr [VStr "ETHUSDT"])).
Proof.
  assert (Hm := multiFields_distinct). assert (Hc := chainFields_distinct).
  destruct partialRecord_dexUniswap as [Pdm Pdc].
  destruct partialRecord_pairETHUSDT as [Ppm Ppc].
  repeat apply conj.
  - intros w val Hp. rewrite setFilterMulti_mergeAll.
    exact (writer_merges multiFields _ Hm val w Hp).
  - intros chain w val Hp. rewrite setFilterChain_mergeAll.
    exact (writer_merges chainFields _ Hc val w Hp).
  - intros w w1 val. rewrite !setFilterMulti_mergeAll.
    exact (writer_idempotent multiFields _ Hm val w w1).
  - intros chain w w1 val. rewrite !setFilterChain_mergeAll.
    exact (writer_idempotent chainFields _ Hc val w w1).
  - intros w.
    destruct (writer_merges multiFields "FILTER_MULTICHAIN" Hm dexUniswap w Pdm)
      as (n1 & E1 & _).
    exists (writeRecord "FILTER_MULTICHAIN" n1 w).
    rewrite !setFilterMulti_mergeAll. split; [exact E1|].
    exact (writer_idempotent multiFields _ Hm _ _ _ E1).
  - intros chain w.
    destruct (writer_merges chainFields (chainFilterKey chain) Hc dexUniswap w Pdc)
      as (n1 & E1 & _).
    exists (writeRecord (chainFilterKey chain) n1 w).
    rewrite !setFilterChain_mergeAll. split; [exact E1|].
    exact (writer_idempotent chainFields _ Hc _ _ _ E1).
  - intros w.
    destruct (writer_dex_then_pair multiFields "FILTER_MULTICHAIN" Hm Pdm Ppm
                eq_refl eq_refl w) as (w1 & w2 & r & H).
    exists w1, w2, r. rewrite !setFilterMulti_mergeAll. exact H.
  - intros chain w.
    destruct (writer_dex_then_pair chainFields (chainFilterKey chain) Hc Pdc Ppc
                eq_refl eq_refl w) as (w1 & w2 & r & H).
    exists w1, w2, r. rewrite !setFilterChain_mergeAll. exact H.
Qed.

Example setFilterMulti_keeps_other_fields :
  (w1 ← setFilterMulti (VObj [("dex", VArr [VStr "UniSwap"])])
          (page [] {["FILTER_MULTICHAIN" := storedMulti]});
   storage w1 !! "FILTER_MULTICHAIN")
  = Some (VObj [("sort", VStr "A"); ("pair", VArr [VStr "BTCUSDT"]); ("pnl", VNum 5);
                ("dex", VArr [VStr "uniswap"])]).
Proof. vm_compute. reflexivity. Qed.

Example setFilterMulti_throws_on_string_field :
  setFilterMulti (VObj [("dex", VStr "uniswap")]) (page [] ∅) = None.
Proof. reflexivity. Qed.

Lemma filter_writes_merge_witness :
  partialRecord multiFields (VObj [("dex", VArr [VStr "UniSwap"])]) /\
  exists next,
    setFilterMulti (VObj [("dex", VArr [VStr "UniSwap"])])
                   (page [] {["FILTER_MULTICHAIN" := storedMulti]})
    = Some (writeRecord "FILTER_MULTICHAIN" next
              (page [] {["FILTER_MULTICHAIN" := storedMulti]})) /\
    forall k, getOwn next k
              = mergedField multiFields (VObj [("dex", VArr [VStr "UniSwap"])])
                  (prevRecord "FILTER_MULTICHAIN"
                     (page [] {["FILTER_MULTICHAIN" := storedMulti]})) k.
Proof.
  assert (Hp : partialRecord multiFields (VObj [("dex", VArr [VStr "UniSwap"])])).
  { partial_record. }
  split; [exact Hp|].
  exact (proj1 filter_writes_merge
           (page [] {["FILTER_MULTICHAIN" := storedMulti]})
           (VObj [("dex", VArr [VStr "UniSwap"])]) Hp).
Defined.

(* ===================================================================== *)
(** ** Filter reads                                                       *)
(* ===================================================================== *)

Lemma lowerChar_idem (c : ascii) : Str.lowerChar (Str.lowerChar c) = Str.lowerChar c.
Proof. destruct c as [[] [] [] [] [] [] [] []]; reflexivity. Qed.

Lemma upperChar_idem (c : ascii) : Str.upperChar (Str.upperChar c) = Str.upperChar c.
Proof. destruct c as [[] [] [] [] [] [] [] []]; reflexivity. Qed.

Lemma toLowerCase_idem (s : string) :
  Str.toLowerCase (Str.toLowerCase s) = Str.toLowerCase s.
Proof.
  unfold Str.toLowerCase. induction s as [|c s IH]; simpl.
  - reflexivity.
  - rewrite lowerChar_idem, IH. reflexivity.
Qed.

Lemma toUpperCase_idem (s : string) :
  Str.toUpperCase (Str.toUpperCase s) = Str.toUpperCase s.
Proof.
  unfold Str.toUpperCase. induction s as [|c s IH]; simpl.
  - reflexivity.
  - rewrite upperChar_idem, IH. reflexivity.
Qed.

Lemma Forall_lowerOf (l : list value) : Forall isLowerStr (map lowerOf l).
Proof.
  induction l as [|x l IH]; simpl; constructor; [|exact IH].
  exists (Str.toLowerCase (String_ x)). split; [reflexivity | apply toLowerCase_idem].
Qed.

Lemma Forall_upperOf (l : list value) : Forall isUpperStr (map upperOf l).
Proof.
  induction l as [|x l IH]; simpl; constructor; [|exact IH].
  exists (Str.toUpperCase (String_ x)). split; [reflexivity | apply toUpperCase_idem].
Qed.

Lemma getFilterMulti_record (w : Window) (f : value) :
  storage w !! "FILTER_MULTICHAIN" = Some f ->
  isRecord f = true ->
  arrayOrFalsy (getProp f "dex") = true ->
  arrayOrFalsy (getProp f "pair") = true ->
  getFilterMulti w
  = Some (VObj [("chains", asStored f "chains"); ("cex", asStored f "cex");
                ("dex", mapped lowerOf f "dex"); ("pair", mapped upperOf f "pair")]).
Proof.
  intros Hs Hr Hd Hp. unfold getFilterMulti, getFromLocalStorage.
  rewrite Hs. simpl. rewrite Hr.
  rewrite (mapField_arrayOrFalsy _ _ _ Hd). simpl.
  rewrite (mapField_arrayOrFalsy _ _ _ Hp). reflexivity.
Qed.

Lemma getFilterChain_record (chain : value) (w : Window) (f : value) :
  storage w !! chainFilterKey (VStr (Str.toLowerCase (String_ chain))) = Some f ->
  isRecord f = true ->
  arrayOrFalsy (getProp f "cex") = true ->
  arrayOrFalsy (getProp f "pair") = true ->
  arrayOrFalsy (getProp f "dex") = true ->
  getFilterChain chain w
  = (Some (VObj [("cex", mapped stringOf f "cex"); ("pair", mapped upperOf f "pair");
                 ("dex", mapped lowerOf f "dex")]), w).
Proof.
  intros Hs Hr Hc Hp Hd. unfold getFilterChain, getFromLocalStorage.
  unfold chainFilterKey in Hs. simpl String_ in Hs. rewrite Hs. simpl default.
  unfold isRecord in Hr. apply andb_true_iff in Hr. destruct Hr as [Ht Ho].
  rewrite Ht, Ho. simpl. unfold isRecord. rewrite Ht, Ho. simpl.
  rewrite (mapField_arrayOrFalsy _ _ _ Hc). simpl.
  rewrite (mapField_arrayOrFalsy _ _ _ Hp). simpl.
  rewrite (mapField_arrayOrFalsy _ _ _ Hd). reflexivity.
Qed.

Lemma getFilterCEX_record (cexName : value) (w : Window) (f : value) :
  storage w !! ("FILTER_CEX_" +:+ Str.toUpperCase (String_ cexName)) = Some f ->
  isRecord f = true ->
  arrayOrFalsy (getProp f "pair") = true ->
  arrayOrFalsy (getProp f "dex") = true ->
  getFilterCEX cexName w
  = Some (VObj [("chains", asStored f "chains"); ("pair", mapped upperOf f "pair");
                ("dex", mapped lowerOf f "dex");
                ("sort", or (getProp f "sort") (VStr "A"))]).
Proof.
  intros Hs Hr Hp Hd. unfold getFilterCEX, getFromLocalStorage.
  rewrite Hs. simpl default. rewrite Hr.
  rewrite (mapField_arrayOrFalsy _ _ _ Hp). simpl.
  rewrite (mapField_arrayOrFalsy _ _ _ Hd). reflexivity.
Qed.

(** C7, as stated, fails: an exchange stored in lower case comes back in
    lower case from the aggregate getter and from the chain getter (and a
    chain stored in upper case comes back in upper case). *)
Lemma reads_keep_exchange_case :
  getFilterMulti (page [] (lowerCexStore "FILTER_MULTICHAIN"))
  = Some (VObj [("chains", VArr [VStr "BSC"]); ("cex", VArr [VStr "binance"]);
                ("dex", VArr []); ("pair", VArr [])]) /\
  fst (getFilterChain (VStr "bsc") (page [] (lowerCexStore "FILTER_BSC")))
  = Some (VObj [("cex", VArr [VStr "binance"]); ("pair", VArr []); ("dex", VArr [])]) /\
  ~ isUpperStr (VStr "binance") /\
  ~ isLowerStr (VStr "BSC").
Proof.
  split; [vm_compute; reflexivity|]. split; [vm_compute; reflexivity|].
  split; intros (s & [= <-] & H); discriminate H.
Qed.

(** C7, amended.  In every scope a read of a stored record returns the dex
    identifiers in lower case and the pair identifiers in upper case; chain
    and exchange identifiers are not case-normalised: the aggregate and the
    exchange scope return them as stored, the chain scope returns the
    exchange identifiers converted to strings. *)
Theorem filter_reads_normalize_dex_and_pair :
  (forall (w : Window) (f : value),
      storage w !! "FILTER_MULTICHAIN" = Some f ->
      isRecord f = true ->
      arrayOrFalsy (getProp f "dex") = true ->
      arrayOrFalsy (getProp f "pair") = true ->
      exists r,
        getFilterMulti w = Some r /\
        getProp r "chains" = asStored f "chains" /\
        getProp r "cex" = asStored f "cex" /\
        getProp r "dex" = mapped lowerOf f "dex" /\
        getProp r "pair" = mapped upperOf f "pair" /\
        Forall isLowerStr (itemsOf (getProp r "dex")) /\
        Forall isUpperStr (itemsOf (getProp r "pair"))) /\
  (forall (chain : value) (w : Window) (f : value),
      storage w !! chainFilterKey (VStr (Str.toLowerCase (String_ chain))) = Some f ->
      isRecord f = true ->
      arrayOrFalsy (getProp f "cex") = true ->
      arrayOrFalsy (getProp f "pair") = true ->
      arrayOrFalsy (getProp f "dex") = true ->
      exists r,
        getFilterChain chain w = (Some r, w) /\
        getProp r "cex" = mapped stringOf f "cex" /\
        getProp r "dex" = mapped lowerOf f "dex" /\
        getProp r "pair" = mapped upperOf f "pair" /\
        Forall isLowerStr (itemsOf (getProp r "dex")) /\
        Forall isUpperStr (itemsOf (getProp r "pair"))) /\
  (forall (cexName : value) (w : Window) (f : value),
      storage w !! ("FILTER_CEX_" +:+ Str.toUpperCase (String_ cexName)) = Some f ->
      isRecord f = true ->
      arrayOrFalsy (getProp f "pair") = true ->
      arrayOrFalsy (getProp f "dex") = true ->
      exists r,
        getFilterCEX cexName w = Some r /\
        getProp r "chains" = asStored f "chains" /\
        getProp r "dex" = mapped lowerOf f "dex" /\
        getProp r "pair" = mapped upperOf f "pair" /\
        Forall isLowerStr (itemsOf (getProp r "dex")) /\
        Forall isUpperStr (itemsOf (getProp r "pair"))).
Proof.
  repeat apply conj.
  - intros w f Hs Hr Hd Hp. eexists. split.
    + apply (getFilterMulti_record w f Hs Hr Hd Hp).
    + repeat split; try reflexivity; [apply Forall_lowerOf | apply Forall_upperOf].
  - intros chain w f Hs Hr Hc Hp Hd. eexists. split.
    + apply (getFilterChain_record chain w f Hs Hr Hc Hp Hd).
    + repeat split; try reflexivity; [apply Forall_lowerOf | apply Forall_upperOf].
  - intros cexName w f Hs Hr Hp Hd. eexists. split.
    + apply (getFilterCEX_record cexName w f Hs Hr Hp Hd).
    + repeat split; try reflexivity; [apply Forall_lowerOf | apply Forall_upperOf].
Qed.

Lemma filter_reads_normalize_dex_and_pair_witness :
  exists r,
    getFilterMulti (page [] mixedCaseStore) = Some r /\
    getProp r "cex" = VArr [VStr "binance"] /\
    getProp r "dex" = VArr [VStr "uniswap"] /\
    getProp r "pair" = VArr [VStr "ETHUSDT"].
Proof.
  destruct (proj1 filter_reads_normalize_dex_and_pair (page [] mixedCaseStore)
              (VObj [("cex", VArr [VStr "binance"]); ("dex", VArr [VStr "UniSwap"]);
                     ("pair", VArr [VStr "ethusdt"])])
              eq_refl eq_refl eq_refl eq_refl)
    as (r & Hr & _ & Hcex & Hdex & Hpair & _).
  exists r. split; [exact Hr|]. split; [exact Hcex|]. split; [exact Hdex | exact Hpair].
Defined.

(* ===================================================================== *)
(** ** Legacy filter records                                              *)
(* ===================================================================== *)

Lemma isRecord_split (f : value) :
  isRecord f = false -> negb (truthy f) || negb (typeofObject f) = true.
Proof. unfold isRecord. destruct (truthy f), (typeofObject f); simpl; congruence. Qed.

(** A read that finds a record under the chain key leaves the window as
    it is. *)
Lemma getFilterChain_pure_when_present (chain : value) (w : Window) :
  isRecord (getFromLocalStorage
              (chainFilterKey (VStr (Str.toLowerCase (String_ chain)))) VNull (storage w))
    = true ->
  snd (getFilterChain chain w) = w.
Proof.
  unfold getFilterChain, chainFilterKey. simpl String_.
  set (f := getFromLocalStorage _ VNull (storage w)). intros Hr.
  assert (Hr' := Hr). unfold isRecord in Hr'. apply andb_true_iff in Hr'.
  destruct Hr' as [Ht Ho]. rewrite Ht, Ho. simpl. rewrite Hr. reflexivity.
Qed.

(** C10.  A chain-scope read can write.  When no record is stored under
    the chain-scoped key, the registry gives the chain a display name, and
    a record is stored under the legacy key made from that name in upper
    case, [getFilterChain] stores that record under the chain-scoped key
    and answers from it; the store it leaves differs from the one it
    found. *)
Theorem getFilterChain_migrates_legacy (chain : value) (w : Window) (lf : value) :
  let chainKey := Str.toLowerCase (String_ chain) in
  let key := "FILTER_" +:+ Str.toUpperCase chainKey in
  isRecord (getFromLocalStorage key VNull (storage w)) = false ->
  legacyNameOf chainKey w <> "" ->
  storage w !! ("FILTER_" +:+ legacyNameOf chainKey w) = Some lf ->
  isRecord lf = true ->
  getFilterChain chain w
    = (readChainRecord lf, set_storage (<[key := lf]> (storage w)) w) /\
  storage (snd (getFilterChain chain w)) !! key = Some lf /\
  storage (snd (getFilterChain chain w)) <> storage w.
Proof.
  intros chainKey key Hnone Hname Hlegacy Hlf.
  assert (E : getFilterChain chain w
              = (readChainRecord lf, set_storage (<[key := lf]> (storage w)) w)).
  { unfold getFilterChain. fold chainKey. fold key.
    rewrite (isRecord_split _ Hnone).
    fold (legacyNameOf chainKey w).
    rewrite (eqb_empty_false _ Hname). simpl negb. cbv iota.
    unfold getFromLocalStorage. rewrite Hlegacy. simpl default.
    rewrite !Hlf. reflexivity. }
  split; [exact E|]. rewrite E. simpl. split.
  - apply lookup_insert_eq.
  - intros Heq.
    assert (Hk : storage w !! key = Some lf).
    { rewrite <- Heq. apply lookup_insert_eq. }
    unfold getFromLocalStorage in Hnone. rewrite Hk in Hnone. simpl in Hnone.
    congruence.
Qed.

Lemma getFilterChain_migrates_legacy_witness :
  getFilterChain (VStr "Ethereum") (page [] legacyStore)
    = (Some (VObj [("cex", VArr [VStr "gate"]); ("pair", VArr []);
                   ("dex", VArr [VStr "kyberswap"])]),
       set_storage (<["FILTER_ETHEREUM" :=
                        VObj [("cex", VArr [VStr "gate"]); ("dex", VArr [VStr "KyberSwap"])]]>
                      legacyStore)
                   (page [] legacyStore)) /\
  storage (snd (getFilterChain (VStr "Ethereum") (page [] legacyStore)))
    !! "FILTER_ETHEREUM"
    = Some (VObj [("cex", VArr [VStr "gate"]); ("dex", VArr [VStr "KyberSwap"])]) /\
  storage (snd (getFilterChain (VStr "Ethereum") (page [] legacyStore)))
    <> storage (page [] legacyStore).
Proof.
  apply (getFilterChain_migrates_legacy (VStr "Ethereum") (page [] legacyStore)
           (VObj [("cex", VArr [VStr "gate"]); ("dex", VArr [VStr "KyberSwap"])])).
  - reflexivity.
  - discriminate.
  - reflexivity.
  - reflexivity.
Defined.

(* ===================================================================== *)
(** ** The CEX mode controller                                            *)
(* ===================================================================== *)

Lemma toUpperCase_nonempty (s : string) : s <> "" -> Str.toUpperCase s <> "".
Proof. destruct s; [congruence | discriminate]. Qed.

Ltac split_ifs :=
  repeat match goal with
         | |- context [if ?b then _ else _] => destruct b
         end.

Lemma enableCEXMode_effect (cexName : string) (reload : bool) (w : Window) :
  cexName <> "" ->
  let w' := enableCEXMode cexName reload w in
  let sel := Str.toUpperCase cexName in
  active w' = VBool true /\
  selectedCEX w' = VStr sel /\
  storage w' = <[STORAGE_KEY := persisted (VBool true) (VStr sel)]> (storage w) /\
  history w' = history w ++ [enableURL sel (search w)] /\
  search w' = enableURL sel (search w) /\
  AppMode w' = None.
Proof.
  intros Hne. cbv zeta. unfold enableCEXMode.
  rewrite (eqb_empty_false _ Hne).
  unfold refreshSignalCards, updateUI, applyTheme, pushState, saveState,
    invalidateAppModeCache.
  split_ifs; repeat split.
Qed.

Lemma disableCEXMode_effect (reload : bool) (w : Window) :
  let w' := disableCEXMode reload w in
  active w' = VBool false /\
  selectedCEX w' = VNull /\
  storage w' = <[STORAGE_KEY := persisted (VBool false) VNull]> (storage w) /\
  history w' = history w ++ [disableURL (search w)] /\
  search w' = disableURL (search w).
Proof.
  cbv zeta. unfold disableCEXMode.
  unfold refreshSignalCards, updateUI, resetTheme, applyThemeForMode, pushState,
    saveState, invalidateAppModeCache.
  split_ifs; repeat split.
Qed.

Lemma refreshes_emit (e : Event) (w : Window) :
  refreshes (emit e w)
  = refreshes w + match e with EvRefreshTokensTable => 1 | _ => 0 end.
Proof.
  unfold refreshes, emit. cbn [events].
  rewrite List.filter_app, length_app. destruct e; reflexivity.
Qed.

Lemma refreshes_frame (w w' : Window) : events w' = events w -> refreshes w' = refreshes w.
Proof. unfold refreshes. intros ->. reflexivity. Qed.

Lemma refreshes_pushState (url : URLSearchParams) (w : Window) :
  refreshes (pushState url w) = refreshes w.
Proof.
  unfold pushState. cbn [monitoring set_search set_history].
  destruct (monitoring w); [rewrite refreshes_emit|]; cbn; unfold refreshes; cbn; lia.
Qed.

Lemma refreshes_applyTheme (cexName : string) (w : Window) :
  refreshes (applyTheme cexName w) = refreshes w.
Proof.
  unfold applyTheme. split_ifs; [rewrite refreshes_emit; lia | reflexivity].
Qed.

Lemma refreshes_applyThemeForMode (w : Window) :
  refreshes (applyThemeForMode w) = refreshes w.
Proof.
  unfold applyThemeForMode, getAppMode.
  destruct (AppMode w); rewrite refreshes_emit; cbn; unfold refreshes; cbn; lia.
Qed.

Lemma enableCEXMode_no_reload (cexName : string) (w : Window) :
  refreshes (enableCEXMode cexName false w) = refreshes w.
Proof.
  unfold enableCEXMode. destruct (cexName =? ""); [reflexivity|].
  unfold refreshSignalCards, updateUI.
  rewrite !refreshes_emit, refreshes_applyTheme.
  unfold invalidateAppModeCache.
  rewrite (refreshes_frame (pushState _ _) (set_AppMode None _) eq_refl).
  rewrite refreshes_pushState. unfold saveState, refreshes. cbn. lia.
Qed.

Lemma disableCEXMode_no_reload (w : Window) :
  refreshes (disableCEXMode false w) = refreshes w.
Proof.
  unfold disableCEXMode, refreshSignalCards, updateUI, resetTheme.
  rewrite !refreshes_emit, refreshes_applyThemeForMode, refreshes_emit.
  unfold invalidateAppModeCache.
  rewrite (refreshes_frame (pushState _ _) (set_AppMode None _) eq_refl).
  rewrite refreshes_pushState. unfold saveState, refreshes. cbn. lia.
Qed.

Example toggle_twice_returns_to_inactive :
  let w := toggleCEXMode "BINANCE" (toggleCEXMode "BINANCE" (page [("chain", "bsc")] ∅)) in
  active w = VBool false /\ selectedCEX w = VNull /\
  storage w !! STORAGE_KEY = Some (persisted (VBool false) VNull).
Proof. repeat split. Qed.

Example enable_then_disable_drops_cex :
  let w := disableCEXMode true (enableCEXMode "GATE" true (page [("chain", "bsc")] ∅)) in
  search w = [] /\ fst (getAppMode w) = Multi /\
  history w = [[("cex", "gate")]; []].
Proof. repeat split. Qed.

(** C8, as stated, fails: both reconciling transitions push a history
    entry. *)
Lemma reconciliation_pushes_history :
  (params_get (search urlAhead) "cex" = Some "okx" /\
   truthy (active urlAhead) = false /\
   history urlAhead = [] /\
   history (checkURLAndUpdateMode urlAhead) = [[("cex", "okx")]]) /\
  (params_get (search stateAhead) "cex" = None /\
   truthy (active stateAhead) = true /\
   history stateAhead = [] /\
   history (checkURLAndUpdateMode stateAhead) = [[("chain", "bsc")]]).
Proof. repeat split. Qed.

Lemma checkURL_enables (w : Window) (v : string) :
  params_get (search w) "cex" = Some v -> v <> "" ->
  truthy (active w) = false \/ strictEqStr (selectedCEX w) (Str.toUpperCase v) = false ->
  checkURLAndUpdateMode w = enableCEXMode (Str.toUpperCase v) false w.
Proof.
  intros Hget Hne Hmis. unfold checkURLAndUpdateMode. rewrite Hget. simpl default.
  rewrite (eqb_empty_false _ Hne). simpl negb. cbv iota.
  destruct Hmis as [H|H]; rewrite H; simpl; [reflexivity|].
  rewrite orb_true_r. reflexivity.
Qed.

Lemma checkURL_disables (w : Window) :
  default "" (params_get (search w) "cex") = "" -> truthy (active w) = true ->
  checkURLAndUpdateMode w
  = emit (EvSetTimeout 50 TaskApplyThemeForMode) (disableCEXMode false w).
Proof.
  intros Hget Hact. unfold checkURLAndUpdateMode. rewrite Hget, Hact. reflexivity.
Qed.

(** C8, amended.  During URL-driven reconciliation, when the query carries
    an exchange and the controller is inactive or has another exchange
    selected, the controller runs the enable transition with the table
    refresh switched off: it becomes active for the exchange in upper case,
    persists that, clears the mode cache, and pushes one history entry whose
    query has [cex] set to the exchange in lower case and no [chain].  When
    the query carries no exchange and the controller is active, it runs the
    disable transition with the table refresh switched off: it becomes
    inactive, persists that, and pushes one history entry whose query has
    no [cex]. *)
Theorem reconciliation_transitions (w : Window) :
  (forall v : string,
      params_get (search w) "cex" = Some v -> v <> "" ->
      truthy (active w) = false \/
        strictEqStr (selectedCEX w) (Str.toUpperCase v) = false ->
      let w' := checkURLAndUpdateMode w in
      let sel := Str.toUpperCase v in
      w' = enableCEXMode sel false w /\
      active w' = VBool true /\
      selectedCEX w' = VStr sel /\
      storage w' = <[STORAGE_KEY := persisted (VBool true) (VStr sel)]> (storage w) /\
      AppMode w' = None /\
      history w' = history w ++ [enableURL sel (search w)] /\
      refreshes w' = refreshes w) /\
  (default "" (params_get (search w) "cex") = "" ->
   truthy (active w) = true ->
   let w' := checkURLAndUpdateMode w in
   w' = emit (EvSetTimeout 50 TaskApplyThemeForMode) (disableCEXMode false w) /\
   active w' = VBool false /\
   selectedCEX w' = VNull /\
   storage w' = <[STORAGE_KEY := persisted (VBool false) VNull]> (storage w) /\
   history w' = history w ++ [disableURL (search w)] /\
   refreshes w' = refreshes w).
Proof.
  split.
  - intros v Hget Hne Hmis. cbv zeta.
    rewrite (checkURL_enables w v Hget Hne Hmis).
    destruct (enableCEXMode_effect (Str.toUpperCase v) false w
                (toUpperCase_nonempty v Hne)) as (Ha & Hs & Hst & Hh & _ & Hm).
    rewrite toUpperCase_idem in Hs, Hst, Hh.
    split; [reflexivity|]. split; [exact Ha|]. split; [exact Hs|].
    split; [exact Hst|]. split; [exact Hm|]. split; [exact Hh|].
    apply enableCEXMode_no_reload.
  - intros Hget Hact. cbv zeta.
    rewrite (checkURL_disables w Hget Hact).
    destruct (disableCEXMode_effect false w) as (Ha & Hs & Hst & Hh & _).
    assert (Hr := disableCEXMode_no_reload w).
    set (X := disableCEXMode false w) in *.
    split; [reflexivity|]. cbn [emit active selectedCEX storage history].
    split; [exact Ha|]. split; [exact Hs|]. split; [exact Hst|]. split; [exact Hh|].
    rewrite refreshes_emit, Hr. lia.
Qed.

Lemma reconciliation_transitions_witness :
  (active (checkURLAndUpdateMode urlAhead) = VBool true /\
   selectedCEX (checkURLAndUpdateMode urlAhead) = VStr "OKX" /\
   history (checkURLAndUpdateMode urlAhead) = history urlAhead ++ [[("cex", "okx")]]) /\
  (active (checkURLAndUpdateMode stateAhead) = VBool false /\
   selectedCEX (checkURLAndUpdateMode stateAhead) = VNull /\
   history (checkURLAndUpdateMode stateAhead)
     = history stateAhead ++ [[("chain", "bsc")]]).
Proof.
  split.
  - destruct (proj1 (reconciliation_transitions urlAhead) "okx" eq_refl
                ltac:(discriminate) (or_introl eq_refl))
      as (_ & Ha & Hs & _ & _ & Hh & _).
    split; [exact Ha|]. split; [exact Hs | exact Hh].
  - destruct (proj2 (reconciliation_transitions stateAhead) eq_refl eq_refl)
      as (_ & Ha & Hs & _ & Hh & _).
    split; [exact Ha|]. split; [exact Hs | exact Hh].
Defined.

(* ===================================================================== *)
(** ** The controller's state invariant                                   *)
(* ===================================================================== *)

Lemma inv_active (w : Window) (s : string) :
  active w = VBool true -> selectedCEX w = VStr s -> CexModeState_inv w.
Proof. intros Ha Hs. unfold CexModeState_inv. rewrite Ha, Hs. split; [reflexivity | discriminate]. Qed.

Lemma inv_inactive (w : Window) :
  active w = VBool false -> selectedCEX w = VNull -> CexModeState_inv w.
Proof. intros Ha Hs. unfold CexModeState_inv. rewrite Ha, Hs. split; intros H; [congruence | discriminate]. Qed.

Lemma inv_frame (w w' : Window) :
  active w' = active w -> selectedCEX w' = selectedCEX w ->
  CexModeState_inv w -> CexModeState_inv w'.
Proof. unfold CexModeState_inv. intros -> ->. trivial. Qed.

Lemma enableCEXMode_inv (cexName : string) (reload : bool) (w : Window) :
  CexModeState_inv w -> CexModeState_inv (enableCEXMode cexName reload w).
Proof.
  intros Hinv. destruct (String.eqb_spec cexName "") as [->|Hne].
  - exact Hinv.
  - destruct (enableCEXMode_effect cexName reload w Hne) as (Ha & Hs & _).
    exact (inv_active _ _ Ha Hs).
Qed.

Lemma disableCEXMode_inv (reload : bool) (w : Window) :
  CexModeState_inv (disableCEXMode reload w).
Proof.
  destruct (disableCEXMode_effect reload w) as (Ha & Hs & _).
  exact (inv_inactive _ Ha Hs).
Qed.

Lemma toggleCEXMode_inv (cexName : string) (w : Window) :
  CexModeState_inv w -> CexModeState_inv (toggleCEXMode cexName w).
Proof.
  intros Hinv. unfold toggleCEXMode.
  destruct (truthy (active w) && strictEqStr (selectedCEX w) cexName).
  - apply disableCEXMode_inv.
  - apply enableCEXMode_inv. exact Hinv.
Qed.

Lemma inv_emit (e : Event) (w : Window) :
  CexModeState_inv w -> CexModeState_inv (emit e w).
Proof. exact (fun H => H). Qed.

Lemma inv_set_monitoring (b : bool) (w : Window) :
  CexModeState_inv w -> CexModeState_inv (set_monitoring b w).
Proof. exact (fun H => H). Qed.

Lemma inv_set_AppMode (m : option Mode) (w : Window) :
  CexModeState_inv w -> CexModeState_inv (set_AppMode m w).
Proof. exact (fun H => H). Qed.

Lemma checkURLAndUpdateMode_inv (w : Window) :
  CexModeState_inv w -> CexModeState_inv (checkURLAndUpdateMode w).
Proof.
  intros Hinv. unfold checkURLAndUpdateMode.
  destruct (negb (default "" (params_get (search w) "cex") =? "")).
  - destruct (negb (truthy (active w)) || negb (strictEqStr _ _)).
    + apply enableCEXMode_inv. exact Hinv.
    + exact Hinv.
  - destruct (truthy (active w)); [|exact Hinv].
    apply inv_emit, disableCEXMode_inv.
Qed.

Lemma init_inv (w : Window) :
  CexModeState_inv w -> CexModeState_inv (init w).
Proof.
  intros Hinv. unfold init, renderToolbar, setupURLMonitoring.
  apply inv_emit, inv_set_monitoring.
  destruct (negb (default "" (params_get (search w) "cex") =? "")).
  - apply inv_emit, enableCEXMode_inv. exact Hinv.
  - destruct (truthy (active w) && truthy (selectedCEX w)); [|exact Hinv].
    apply disableCEXMode_inv.
Qed.

Lemma runTask_inv (t : Task) (w : Window) :
  CexModeState_inv w -> CexModeState_inv (runTask t w).
Proof.
  intros Hinv. destruct t; simpl.
  - apply checkURLAndUpdateMode_inv. exact Hinv.
  - unfold applyThemeForMode, getAppMode.
    destruct (AppMode w); apply inv_emit; [|apply inv_set_AppMode]; exact Hinv.
  - do 3 apply inv_emit. exact Hinv.
Qed.

Lemma or_not_null (v : value) : or v VNull <> VNull <-> truthy v = true.
Proof.
  unfold or. destruct (truthy v) eqn:E.
  - split; [reflexivity|]. intros _ ->. discriminate E.
  - split; [congruence | discriminate].
Qed.

Lemma or_false_is_true (v : value) : or v (VBool false) = VBool true <-> v = VBool true.
Proof.
  unfold or. destruct (truthy v) eqn:E.
  - reflexivity.
  - split; [discriminate|]. intros ->. discriminate E.
Qed.

(** Construction yields the invariant exactly for the records that pair a
    truthy exchange with [active === true]. *)
Lemma constructor_inv_iff (w : Window) :
  CexModeState_inv (constructor w) <-> persisted_ok (loadState w).
Proof.
  unfold CexModeState_inv, persisted_ok, constructor.
  cbn [active selectedCEX set_manager].
  rewrite or_not_null, or_false_is_true. reflexivity.
Qed.

Lemma loadState_absent (w : Window) :
  storage w !! STORAGE_KEY = None -> loadState w = defaultState.
Proof. intros H. unfold loadState, getFromLocalStorage. rewrite H. reflexivity. Qed.

Lemma loadState_persisted (w : Window) (a s : value) :
  storage w !! STORAGE_KEY = Some (persisted a s) -> loadState w = persisted a s.
Proof. intros H. unfold loadState, getFromLocalStorage. rewrite H. reflexivity. Qed.

(** C9, as stated, fails: a persisted record with [active: true] and no
    exchange is restored as it is, and start-up reconciliation on a page
    without a [cex] parameter leaves it so. *)
Lemma restore_breaks_invariant :
  ~ CexModeState_inv (constructor (page [] brokenStore)) /\
  ~ CexModeState_inv (init (constructor (page [] brokenStore))).
Proof.
  split; intros [_ H]; apply (H eq_refl); reflexivity.
Qed.

(** C9, amended.  The invariant holds after construction when nothing is
    persisted, and more generally when the persisted record has a truthy
    exchange exactly when its [active] is [true]; that is so for every
    record the controller persists in its enable and disable transitions.
    From a state with the invariant, enable, disable, toggle, start-up
    reconciliation and URL-driven reconciliation all return a state with
    the invariant. *)
Theorem CexModeState_inv_preserved :
  (forall w : Window,
      persisted_ok (loadState w) -> CexModeState_inv (constructor w)) /\
  (forall w : Window,
      storage w !! STORAGE_KEY = None -> CexModeState_inv (constructor w)) /\
  (forall (w : Window) (cexName : string) (reload : bool),
      cexName <> "" ->
      CexModeState_inv (constructor (enableCEXMode cexName reload w))) /\
  (forall (w : Window) (reload : bool),
      CexModeState_inv (constructor (disableCEXMode reload w))) /\
  (forall (w : Window) (cexName : string) (reload : bool),
      CexModeState_inv w -> CexModeState_inv (enableCEXMode cexName reload w)) /\
  (forall (w : Window) (reload : bool),
      CexModeState_inv w -> CexModeState_inv (disableCEXMode reload w)) /\
  (forall (w : Window) (cexName : string),
      CexModeState_inv w -> CexModeState_inv (toggleCEXMode cexName w)) /\
  (forall w : Window, CexModeState_inv w -> CexModeState_inv (init w)) /\
  (forall w : Window,
      CexModeState_inv w -> CexModeState_inv (checkURLAndUpdateMode w)).
Proof.
  repeat apply conj.
  - intros w H. apply constructor_inv_iff. exact H.
  - intros w H. apply constructor_inv_iff. rewrite (loadState_absent w H).
    unfold persisted_ok. simpl. split; discriminate.
  - intros w cexName reload Hne. apply constructor_inv_iff.
    destruct (enableCEXMode_effect cexName reload w Hne) as (_ & _ & Hst & _).
    rewrite (loadState_persisted _ (VBool true) (VStr (Str.toUpperCase cexName))).
    + unfold persisted_ok. cbn.
      rewrite (eqb_empty_false _ (toUpperCase_nonempty _ Hne)). split; reflexivity.
    + rewrite Hst. apply lookup_insert_eq.
  - intros w reload. apply constructor_inv_iff.
    destruct (disableCEXMode_effect reload w) as (_ & _ & Hst & _).
    rewrite (loadState_persisted _ (VBool false) VNull).
    + unfold persisted_ok. simpl. split; discriminate.
    + rewrite Hst. apply lookup_insert_eq.
  - intros w cexName reload. apply enableCEXMode_inv.
  - intros w reload _. apply disableCEXMode_inv.
  - intros w cexName. apply toggleCEXMode_inv.
  - intros w. apply init_inv.
  - intros w. apply checkURLAndUpdateMode_inv.
Qed.

Lemma CexModeState_inv_preserved_witness :
  CexModeState_inv (constructor stateAhead) /\
  CexModeState_inv (toggleCEXMode "GATE" (constructor stateAhead)) /\
  CexModeState_inv (init (constructor stateAhead)).
Proof.
  destruct CexModeState_inv_preserved
    as (Hctor & _ & _ & _ & _ & _ & Htoggle & Hinit & _).
  assert (H0 : CexModeState_inv (constructor stateAhead)).
  { apply Hctor. unfold persisted_ok. simpl. split; reflexivity. }
  split; [exact H0|]. split; [apply Htoggle | apply Hinit]; exact H0.
Defined.

(* ===================================================================== *)
(** ** More on strings                                                    *)
(* ===================================================================== *)



Lemma isWhiteSpace_upperChar (c : ascii) :
  Str.isWhiteSpace (Str.upperChar c) = Str.isWhiteSpace c.
Proof. destruct c as [[] [] [] [] [] [] [] []]; reflexivity. Qed.

Lemma isWhiteSpace_lowerChar (c : ascii) :
  Str.isWhiteSpace (Str.lowerChar c) = Str.isWhiteSpace c.
Proof. destruct c as [[] [] [] [] [] [] [] []]; reflexivity. Qed.




Lemma mapChars_empty (f : ascii -> ascii) (s : string) :
  Str.mapChars f s = "" <-> s = "".
Proof. destruct s; simpl; split; congruence. Qed.

Section TrimAndCase.
Variable f : ascii -> ascii.
Hypothesis f_keeps_space : forall c, Str.isWhiteSpace (f c) = Str.isWhiteSpace c.

Lemma trimStart_mapChars (s : string) :
  Str.trimStart (Str.mapChars f s) = Str.mapChars f (Str.trimStart s).
Proof.
  induction s as [|c s IH]; simpl.
  - reflexivity.
  - rewrite f_keeps_space. destruct (Str.isWhiteSpace c); [exact IH | reflexivity].
Qed.

Lemma trimEnd_mapChars (s : string) :
  Str.trimEnd (Str.mapChars f s) = Str.mapChars f (Str.trimEnd s).
Proof.
  induction s as [|c s IH]; simpl.
  - reflexivity.
  - rewrite IH, f_keeps_space.
    destruct (Str.trimEnd s) as [|d t]; simpl.
    + destruct (Str.isWhiteSpace c); reflexivity.
    + reflexivity.
Qed.

Lemma trim_mapChars (s : string) :
  Str.trim (Str.mapChars f s) = Str.mapChars f (Str.trim s).
Proof. unfold Str.trim. rewrite trimStart_mapChars, trimEnd_mapChars. reflexivity. Qed.

End TrimAndCase.

Lemma trim_toUpperCase (s : string) :
  Str.trim (Str.toUpperCase s) = Str.toUpperCase (Str.trim s).
Proof. apply trim_mapChars. exact isWhiteSpace_upperChar. Qed.

Lemma trim_toLowerCase (s : string) :
  Str.trim (Str.toLowerCase s) = Str.toLowerCase (Str.trim s).
Proof. apply trim_mapChars. exact isWhiteSpace_lowerChar. Qed.

Lemma trimEnd_idem (s : string) : Str.trimEnd (Str.trimEnd s) = Str.trimEnd s.
Proof.
  induction s as [|c s IH]; simpl.
  - reflexivity.
  - destruct (Str.trimEnd s) as [|d t] eqn:E.
    + destruct (Str.isWhiteSpace c) eqn:W; simpl; [reflexivity|].
      rewrite W. reflexivity.
    + simpl in IH |- *. rewrite IH. reflexivity.
Qed.

(** No white space in front. *)
Lemma trimStart_fixed (s : string) :
  Str.trimStart (Str.trimStart s) = Str.trimStart s.
Proof.
  induction s as [|c s IH]; simpl.
  - reflexivity.
  - destruct (Str.isWhiteSpace c) eqn:W; [exact IH|]. simpl. rewrite W. reflexivity.
Qed.

Lemma trimStart_trimEnd (s : string) :
  Str.trimStart s = s -> Str.trimStart (Str.trimEnd s) = Str.trimEnd s.
Proof.
  destruct s as [|c s]; simpl; [reflexivity|].
  destruct (Str.isWhiteSpace c) eqn:W.
  - intros H. exfalso.
    assert (L : String.length (Str.trimStart s) <= String.length s).
    { clear. induction s as [|d s IH]; simpl; [lia|].
      destruct (Str.isWhiteSpace d); simpl; lia. }
    rewrite H in L. simpl in L. lia.
  - intros _. destruct (Str.trimEnd s); simpl; rewrite W; reflexivity.
Qed.

Lemma trim_idem (s : string) : Str.trim (Str.trim s) = Str.trim s.
Proof.
  unfold Str.trim.
  rewrite (trimStart_trimEnd (Str.trimStart s) (trimStart_fixed s)).
  apply trimEnd_idem.
Qed.

(* ===================================================================== *)
(** ** What [getAppMode] builds                                           *)
(* ===================================================================== *)

Lemma resolveMode_wellFormed (w : Window) :
  modeWellFormed (CONFIG_CHAINS w) (resolveMode w).
Proof.
  unfold resolveMode.
  set (cexParam := Str.trim (default "" (params_get (search w) "cex"))).
  set (chainParam := Str.toLowerCase (default "" (params_get (search w) "chain"))).
  destruct (cexParam =? "") eqn:Ec; simpl.
  - destruct (chainParam =? "") eqn:E1; simpl; [exact I|].
    destruct (chainParam =? "all") eqn:E2; simpl; [exact I|].
    destruct (truthy (CONFIG_CHAINS w)); simpl; [|exact I].
    destruct (truthy (getProp (CONFIG_CHAINS w) chainParam)) eqn:E3; simpl; [|exact I].
    apply String.eqb_neq in E1, E2. repeat split; try assumption.
    apply toLowerCase_idem.
  - apply String.eqb_neq in Ec. repeat split.
    + apply toUpperCase_nonempty. exact Ec.
    + apply toUpperCase_idem.
    + rewrite trim_toUpperCase. unfold cexParam. rewrite trim_idem. reflexivity.
Qed.

(** X1.  On an empty cache, a mode that [getAppMode] returns is well
    formed: the exchange of a Cex mode is non-empty, trimmed and in upper
    case; the chain of a Single mode is in lower case, is neither empty nor
    [all], and has a truthy entry in the chain registry. *)
Theorem getAppMode_wellFormed (w : Window) :
  AppMode w = None ->
  modeWellFormed (CONFIG_CHAINS w) (fst (getAppMode w)).
Proof.
  intros H. rewrite (getAppMode_fresh w H). apply resolveMode_wellFormed.
Qed.

Lemma getAppMode_wellFormed_witness :
  AppMode (page [("cex", "  gate ")] ∅) = None /\
  modeWellFormed sampleChains (fst (getAppMode (page [("cex", "  gate ")] ∅))).
Proof.
  split; [reflexivity|].
  exact (getAppMode_wellFormed (page [("cex", "  gate ")] ∅) eq_refl).
Defined.

Lemma trim_empty_upper (s t : string) :
  Str.toUpperCase s = Str.toUpperCase t ->
  Str.toUpperCase (Str.trim s) = Str.toUpperCase (Str.trim t).
Proof. intros H. rewrite <- !trim_toUpperCase, H. reflexivity. Qed.

(** X2.  The letter case of the [cex] and [chain] values does not matter:
    two pages with the same chain registry whose [cex] values agree up to
    case and whose [chain] values agree up to case resolve to the same
    mode. *)
Theorem getAppMode_ignores_case (w1 w2 : Window) :
  AppMode w1 = None -> AppMode w2 = None ->
  CONFIG_CHAINS w1 = CONFIG_CHAINS w2 ->
  Str.toUpperCase (param "cex" w1) = Str.toUpperCase (param "cex" w2) ->
  Str.toLowerCase (param "chain" w1) = Str.toLowerCase (param "chain" w2) ->
  fst (getAppMode w1) = fst (getAppMode w2).
Proof.
  intros H1 H2 Hreg Hcex Hchain.
  rewrite (getAppMode_fresh w1 H1), (getAppMode_fresh w2 H2). simpl.
  unfold resolveMode. unfold param in *.
  rewrite Hchain, Hreg.
  assert (Hu := trim_empty_upper _ _ Hcex).
  assert (He : (Str.trim (default "" (params_get (search w1) "cex")) =? "")
             = (Str.trim (default "" (params_get (search w2) "cex")) =? "")).
  { destruct (String.eqb_spec (Str.trim (default "" (params_get (search w1) "cex"))) "")
      as [E1|E1];
    destruct (String.eqb_spec (Str.trim (default "" (params_get (search w2) "cex"))) "")
      as [E2|E2]; try reflexivity; exfalso.
    - rewrite E1 in Hu. symmetry in Hu. apply mapChars_empty in Hu. contradiction.
    - rewrite E2 in Hu. apply mapChars_empty in Hu. contradiction. }
  rewrite He, Hu. reflexivity.
Qed.

Lemma getAppMode_ignores_case_witness :
  fst (getAppMode (page [("cex", "Gate")] ∅)) = fst (getAppMode (page [("cex", "gATE")] ∅)) /\
  fst (getAppMode (page [("chain", "BSC")] ∅)) = fst (getAppMode (page [("chain", "bsc")] ∅)).
Proof.
  split.
  - exact (getAppMode_ignores_case (page [("cex", "Gate")] ∅) (page [("cex", "gATE")] ∅)
             eq_refl eq_refl eq_refl eq_refl eq_refl).
  - exact (getAppMode_ignores_case (page [("chain", "BSC")] ∅) (page [("chain", "bsc")] ∅)
             eq_refl eq_refl eq_refl eq_refl eq_refl).
Defined.

(* ===================================================================== *)
(** ** Tokens and filters of the active mode                              *)
(* ===================================================================== *)

Lemma saveActiveTokens_eq (list : value) (w : Window) :
  saveActiveTokens list w
  = set_storage (<[tokenKey (fst (getAppMode w)) := tokensToStore list]>
                   (storage (snd (getAppMode w))))
                (snd (getAppMode w)).
Proof.
  unfold saveActiveTokens, getActiveTokenKey. destruct (getAppMode w). reflexivity.
Qed.

Lemma getActiveTokens_eq (d : value) (w : Window) :
  fst (getActiveTokens d w)
  = or (getFromLocalStorage (tokenKey (fst (getAppMode w))) d
          (storage (snd (getAppMode w)))) d.
Proof.
  unfold getActiveTokens, getActiveTokenKey. destruct (getAppMode w). reflexivity.
Qed.

Lemma storage_getAppMode (w : Window) : storage (snd (getAppMode w)) = storage w.
Proof. unfold getAppMode. destruct (AppMode w); reflexivity. Qed.

Lemma or_tokensToStore (list d : value) : or (tokensToStore list) d = tokensToStore list.
Proof. unfold tokensToStore. destruct list; reflexivity. Qed.

Lemma tokenKey_aggregate (m : Mode) : aggregate m -> tokenKey m = "TOKEN_MULTICHAIN".
Proof. destruct m; simpl; [reflexivity | contradiction | reflexivity]. Qed.

(** X3.  Tokens saved for the active mode are read back in the same
    window: an array as it was given, anything else as the empty array.
    Tokens saved in an exchange or aggregate mode are also what is read
    after the query has changed to any other exchange or aggregate mode and
    the cache has been invalidated.  With nothing stored under the active
    key the read answers its default. *)
Theorem activeTokens_round_trip :
  (forall (w : Window) (list d : value),
      fst (getActiveTokens d (saveActiveTokens list w)) = tokensToStore list) /\
  (forall (w : Window) (list d : value) (q : URLSearchParams),
      let w2 := invalidateAppModeCache (set_search q (saveActiveTokens list w)) in
      aggregate (fst (getAppMode w)) ->
      aggregate (fst (getAppMode w2)) ->
      fst (getActiveTokens d w2) = tokensToStore list) /\
  (forall (w : Window) (d : value),
      storage w !! tokenKey (fst (getAppMode w)) = None ->
      fst (getActiveTokens d w) = d).
Proof.
  repeat apply conj.
  - intros w list d. rewrite getActiveTokens_eq, saveActiveTokens_eq.
    assert (E : getAppMode (set_storage
                  (<[tokenKey (fst (getAppMode w)) := tokensToStore list]>
                     (storage (snd (getAppMode w)))) (snd (getAppMode w)))
                = (fst (getAppMode w),
                   set_storage
                     (<[tokenKey (fst (getAppMode w)) := tokensToStore list]>
                        (storage (snd (getAppMode w)))) (snd (getAppMode w)))).
    { apply getAppMode_cached. apply getAppMode_fills_cache. }
    rewrite E. cbn [fst snd storage set_storage]. unfold getFromLocalStorage.
    rewrite lookup_insert_eq. apply or_tokensToStore.
  - intros w list d q w2 Ha Hb.
    rewrite getActiveTokens_eq, storage_getAppMode.
    rewrite (tokenKey_aggregate _ Hb).
    unfold w2. rewrite saveActiveTokens_eq, (tokenKey_aggregate _ Ha).
    cbn [storage invalidateAppModeCache set_AppMode set_search set_storage].
    unfold getFromLocalStorage. rewrite lookup_insert_eq. apply or_tokensToStore.
  - intros w d H. rewrite getActiveTokens_eq, storage_getAppMode.
    unfold getFromLocalStorage. rewrite H. simpl. unfold or. destruct (truthy d); reflexivity.
Qed.

Lemma activeTokens_round_trip_witness :
  fst (getActiveTokens (VArr [])
         (invalidateAppModeCache
            (set_search [("chain", "all")]
               (saveActiveTokens (VArr [VStr "t1"]) (page [("cex", "gate")] ∅)))))
  = VArr [VStr "t1"].
Proof.
  exact (proj1 (proj2 activeTokens_round_trip) (page [("cex", "gate")] ∅)
           (VArr [VStr "t1"]) (VArr []) [("chain", "all")] I I).
Defined.

Lemma saveActiveFilters_eq (obj : value) (w : Window) :
  saveActiveFilters obj w
  = set_storage (<[filterKey (fst (getAppMode w)) := or obj (VObj [])]>
                   (storage (snd (getAppMode w))))
                (snd (getAppMode w)).
Proof.
  unfold saveActiveFilters, getActiveFilterKey. destruct (getAppMode w). reflexivity.
Qed.

Lemma getActiveFilters_eq (d : value) (w : Window) :
  fst (getActiveFilters d w)
  = getFromLocalStorage (filterKey (fst (getAppMode w))) d (storage (snd (getAppMode w))).
Proof.
  unfold getActiveFilters, getActiveFilterKey. destruct (getAppMode w). reflexivity.
Qed.

(** X4.  Filters saved for the active mode are read back in the same
    window (a falsy argument as the empty object), and a save in an
    exchange mode leaves the aggregate filter record and what
    [getFilterMulti] reads untouched. *)
Theorem activeFilters_round_trip :
  (forall (w : Window) (obj d : value),
      fst (getActiveFilters d (saveActiveFilters obj w)) = or obj (VObj [])) /\
  (forall (w : Window) (obj : value) (e : string),
      fst (getAppMode w) = Cex e ->
      storage (saveActiveFilters obj w) !! "FILTER_MULTICHAIN"
        = storage w !! "FILTER_MULTICHAIN" /\
      getFilterMulti (saveActiveFilters obj w) = getFilterMulti w).
Proof.
  split.
  - intros w obj d. rewrite getActiveFilters_eq, saveActiveFilters_eq.
    assert (E : getAppMode (set_storage
                  (<[filterKey (fst (getAppMode w)) := or obj (VObj [])]>
                     (storage (snd (getAppMode w)))) (snd (getAppMode w)))
                = (fst (getAppMode w),
                   set_storage
                     (<[filterKey (fst (getAppMode w)) := or obj (VObj [])]>
                        (storage (snd (getAppMode w)))) (snd (getAppMode w)))).
    { apply getAppMode_cached. apply getAppMode_fills_cache. }
    rewrite E. cbn [fst snd storage set_storage]. unfold getFromLocalStorage.
    rewrite lookup_insert_eq. reflexivity.
  - intros w obj e He.
    assert (Hs : storage (saveActiveFilters obj w) !! "FILTER_MULTICHAIN"
                 = storage w !! "FILTER_MULTICHAIN").
    { rewrite saveActiveFilters_eq, He. cbn [storage set_storage].
      rewrite storage_getAppMode. apply lookup_insert_ne.
      apply (filterKey_cex_not_multi e). }
    split; [exact Hs|].
    unfold getFilterMulti, getFromLocalStorage. rewrite Hs. reflexivity.
Qed.

Lemma activeFilters_round_trip_witness :
  storage (saveActiveFilters (VObj [("sort", VStr "Z")])
             (page [("cex", "gate")] {["FILTER_MULTICHAIN" := storedMulti]}))
    !! "FILTER_MULTICHAIN"
  = Some storedMulti.
Proof.
  exact (proj1 (proj2 activeFilters_round_trip
                  (page [("cex", "gate")] {["FILTER_MULTICHAIN" := storedMulti]})
                  (VObj [("sort", VStr "Z")]) "GATE" eq_refl)).
Defined.

(* ===================================================================== *)
(** ** The exchange-scope setter                                          *)
(* ===================================================================== *)

Lemma cexFields_distinct : distinctFields cexFields.
Proof. simpl. repeat split. Qed.

Lemma setFilterCEX_mergeAll (cexName val : value) (w : Window) :
  setFilterCEX cexName val w =
  (next ← mergeAll cexFields val (prevRecord (cexFilterKey cexName) w);
   Some (writeRecord (cexFilterKey cexName) (sortStep val next) w)).
Proof.
  unfold setFilterCEX, prevRecord, writeRecord, cexFilterKey, sortStep, present. simpl.
  destruct (mergeField "chains" _ _ _) as [n1|]; simpl; [|reflexivity].
  destruct (mergeField "pair" _ _ _) as [n2|]; simpl; [|reflexivity].
  destruct (mergeField "dex" _ _ _) as [n3|]; reflexivity.
Qed.

Lemma mapField_Some (norm : value -> value) (val : value) (k : string) (arr : value) :
  mapField norm val k = Some arr ->
  arr = normalised norm val k /\ arrayOrFalsy (getProp val k) = true.
Proof.
  unfold mapField, or, normalised.
  destruct (getProp val k) eqn:E; simpl; try discriminate;
    try (intros [= <-]; split; reflexivity).
  - destruct b; simpl; [discriminate | intros [= <-]; split; reflexivity].
  - destruct (n =? 0)%Z; simpl; [intros [= <-]; split; reflexivity | discriminate].
  - destruct (s =? ""); simpl; [intros [= <-]; split; reflexivity | discriminate].
Qed.

(** After a successful pass every field the input carries holds its
    normalised content. *)
Lemma mergeAll_success (fields : list (string * (value -> value))) (val : value) :
  distinctFields fields ->
  forall next next', mergeAll fields val next = Some next' ->
  forall k norm, In (k, norm) fields -> present val k = true ->
  getOwn next' k = Some (normalised norm val k) /\
  arrayOrFalsy (getProp val k) = true.
Proof.
  induction fields as [|[k0 norm0] fs IH]; simpl; intros Hd next next' H k norm Hin Hp.
  - contradiction.
  - destruct Hd as [Hfresh Hd].
    destruct (mergeField k0 norm0 val next) as [n1|] eqn:E1; simpl in H; [|discriminate].
    destruct Hin as [Hin|Hin].
    + injection Hin as -> ->.
      unfold mergeField in E1. unfold present in Hp. rewrite Hp in E1.
      destruct (mapField norm val k) as [arr|] eqn:Em; simpl in E1; [|discriminate].
      injection E1 as <-.
      destruct (mapField_Some _ _ _ _ Em) as [-> Hok]. split; [|exact Hok].
      rewrite (mergeAll_other fs val k Hfresh _ _ H). apply getOwn_setProp_eq.
    + exact (IH Hd n1 next' H k norm Hin Hp).
Qed.

(** A pass over a record that already holds the normalised content of
    every carried field returns that record. *)
Lemma mergeAll_stable (fields : list (string * (value -> value))) (val : value)
    (l : list (string * value)) :
  (forall k norm, In (k, norm) fields -> present val k = true ->
     getOwn l k = Some (normalised norm val k) /\
     arrayOrFalsy (getProp val k) = true) ->
  mergeAll fields val l = Some l.
Proof.
  induction fields as [|[k0 norm0] fs IH]; simpl; intros H.
  - reflexivity.
  - assert (E : mergeField k0 norm0 val l = Some l).
    { unfold mergeField. fold (present val k0).
      destruct (present val k0) eqn:Hp; [|reflexivity].
      destruct (H k0 norm0 (or_introl eq_refl) Hp) as [Hget Hok].
      rewrite (mapField_arrayOrFalsy _ _ _ Hok). simpl. f_equal.
      apply setProp_same. exact Hget. }
    rewrite E. simpl. apply IH. intros k norm Hin. apply H. right. exact Hin.
Qed.

Lemma getOwn_sortStep (val : value) (next : list (string * value)) (k : string) :
  getOwn (sortStep val next) k
  = if (k =? "sort") && present val "sort" then Some (getProp val "sort")
    else getOwn next k.
Proof.
  unfold sortStep. destruct (present val "sort").
  - rewrite getOwn_setProp, String.eqb_sym, andb_true_r. reflexivity.
  - rewrite andb_false_r. reflexivity.
Qed.

Lemma sortStep_twice (val : value) (next : list (string * value)) :
  sortStep val (sortStep val next) = sortStep val next.
Proof.
  unfold sortStep. destruct (present val "sort"); [|reflexivity].
  apply setProp_same. apply getOwn_setProp_eq.
Qed.

Lemma In_cexFields_not_sort (k : string) (norm : value -> value) :
  In (k, norm) cexFields -> (k =? "sort") = false.
Proof.
  simpl. intros [H|[H|[H|[]]]]; injection H as <- <-; reflexivity.
Qed.

(** X5.  Exchange-scope filter writes merge.  Writing a partial record
    with [setFilterCEX] succeeds and stores a record in which [chains],
    [pair] and [dex] hold the normalised input where the input carries
    them, [sort] holds the input's [sort] as given where the input carries
    one, and every other field holds what was stored before; writing the
    same input again leaves the store as the first write left it. *)
Theorem setFilterCEX_merges :
  (forall (cexName : value) (w : Window) (val : value),
      partialRecord cexFields val ->
      exists next,
        setFilterCEX cexName val w = Some (writeRecord (cexFilterKey cexName) next w) /\
        forall k, getOwn next k
                  = mergedFieldCEX val (prevRecord (cexFilterKey cexName) w) k) /\
  (forall (cexName : value) (w w1 : Window) (val : value),
      setFilterCEX cexName val w = Some w1 -> setFilterCEX cexName val w1 = Some w1).
Proof.
  split.
  - intros cexName w val Hp. rewrite setFilterCEX_mergeAll.
    destruct (mergeAll_spec cexFields val cexFields_distinct Hp
                (prevRecord (cexFilterKey cexName) w)) as (next & E & Hget).
    exists (sortStep val next). rewrite E. split; [reflexivity|].
    intros k. rewrite getOwn_sortStep. unfold mergedFieldCEX.
    destruct ((k =? "sort") && present val "sort"); [reflexivity | apply Hget].
  - intros cexName w w1 val. rewrite !setFilterCEX_mergeAll. intros H.
    destruct (mergeAll cexFields val (prevRecord (cexFilterKey cexName) w))
      as [next|] eqn:E; simpl in H; [|discriminate].
    injection H as <-. rewrite prevRecord_writeRecord.
    rewrite (mergeAll_stable cexFields val (sortStep val next)).
    + simpl. rewrite sortStep_twice, writeRecord_twice. reflexivity.
    + intros k norm Hin Hpres.
      destruct (mergeAll_success cexFields val cexFields_distinct _ _ E k norm Hin Hpres)
        as [Hget Hok].
      split; [|exact Hok].
      rewrite getOwn_sortStep, (In_cexFields_not_sort k norm Hin). exact Hget.
Qed.

Lemma setFilterCEX_merges_witness :
  exists next,
    setFilterCEX (VStr "gate") (VObj [("dex", VArr [VStr "UniSwap"]); ("sort", VStr "Z")])
                 (page [] {["FILTER_CEX_GATE" := storedMulti]})
    = Some (writeRecord "FILTER_CEX_GATE" next
              (page [] {["FILTER_CEX_GATE" := storedMulti]})) /\
    getOwn next "dex" = Some (VArr [VStr "uniswap"]) /\
    getOwn next "sort" = Some (VStr "Z") /\
    getOwn next "pair" = Some (VArr [VStr "BTCUSDT"]).
Proof.
  assert (Hp : partialRecord cexFields
                 (VObj [("dex", VArr [VStr "UniSwap"]); ("sort", VStr "Z")])).
  { partial_record. }
  destruct (proj1 setFilterCEX_merges (VStr "gate")
              (page [] {["FILTER_CEX_GATE" := storedMulti]})
              (VObj [("dex", VArr [VStr "UniSwap"]); ("sort", VStr "Z")]) Hp)
    as (next & E & Hget).
  exists next. split; [exact E|]. rewrite !Hget. repeat split.
Defined.

(* ===================================================================== *)
(** ** Writing a filter and reading it back                               *)
(* ===================================================================== *)

Lemma lowerOf_idem (x : value) : lowerOf (lowerOf x) = lowerOf x.
Proof. unfold lowerOf. simpl. rewrite toLowerCase_idem. reflexivity. Qed.

Lemma upperOf_idem (x : value) : upperOf (upperOf x) = upperOf x.
Proof. unfold upperOf. simpl. rewrite toUpperCase_idem. reflexivity. Qed.


Lemma map_idem (norm : value -> value) (l : list value) :
  (forall x, norm (norm x) = norm x) -> map norm (map norm l) = map norm l.
Proof.
  intros H. induction l as [|x l IH]; simpl; [reflexivity|]. rewrite H, IH. reflexivity.
Qed.

(** Reading a field that holds normalised content through the same
    normalisation returns it as it is. *)
Lemma read_back_mapped (norm : value -> value) (next : list (string * value))
    (val : value) (k : string) :
  (forall x, norm (norm x) = norm x) ->
  getOwn next k = Some (normalised norm val k) ->
  mapField norm (VObj next) k = Some (normalised norm val k).
Proof.
  intros Hn H. unfold mapField, getProp. rewrite H. unfold normalised. simpl.
  rewrite (map_idem norm _ Hn). reflexivity.
Qed.

Lemma read_back_asStored (norm : value -> value) (next : list (string * value))
    (val : value) (k : string) :
  getOwn next k = Some (normalised norm val k) ->
  asStored (VObj next) k = normalised norm val k.
Proof. intros H. unfold asStored, getProp. rewrite H. reflexivity. Qed.

Lemma getFilterMulti_written (next : list (string * value)) (w : Window) :
  getFilterMulti (writeRecord "FILTER_MULTICHAIN" next w)
  = (dex ← mapField lowerOf (VObj next) "dex";
     pair ← mapField upperOf (VObj next) "pair";
     Some (VObj [("chains", asStored (VObj next) "chains");
                 ("cex", asStored (VObj next) "cex");
                 ("dex", dex); ("pair", pair)])).
Proof.
  unfold getFilterMulti, getFromLocalStorage. rewrite storage_writeRecord. reflexivity.
Qed.

(** X6.  What [setFilterMulti] has written, [getFilterMulti] reads back:
    after a successful write every field the input carried comes back as
    the normalised input (chains and dex in lower case, exchanges and
    pairs in upper case), and the read succeeds when the input carried
    [dex] and [pair]. *)
Theorem setFilterMulti_then_getFilterMulti (w w1 : Window) (val : value) :
  setFilterMulti val w = Some w1 ->
  (forall r, getFilterMulti w1 = Some r ->
     forall k norm, In (k, norm) multiFields -> present val k = true ->
     getProp r k = normalised norm val k) /\
  (present val "dex" = true -> present val "pair" = true ->
   exists r, getFilterMulti w1 = Some r).
Proof.
  rewrite setFilterMulti_mergeAll. intros H.
  destruct (mergeAll multiFields val (prevRecord "FILTER_MULTICHAIN" w))
    as [next|] eqn:E; simpl in H; [|discriminate].
  injection H as <-.
  assert (Hs := mergeAll_success multiFields val multiFields_distinct _ _ E).
  rewrite getFilterMulti_written. split.
  - intros r Hr k norm Hin Hp.
    destruct (Hs k norm Hin Hp) as [Hget _].
    destruct (mapField lowerOf (VObj next) "dex") as [d|] eqn:Ed; simpl in Hr;
      [|discriminate].
    destruct (mapField upperOf (VObj next) "pair") as [p|] eqn:Ep; simpl in Hr;
      [|discriminate].
    injection Hr as <-.
    simpl in Hin. destruct Hin as [Hin|[Hin|[Hin|[Hin|[]]]]]; injection Hin as <- <-.
    + exact (read_back_asStored _ _ _ _ Hget).
    + exact (read_back_asStored _ _ _ _ Hget).
    + rewrite (read_back_mapped _ _ _ _ lowerOf_idem Hget) in Ed.
      injection Ed as <-. reflexivity.
    + rewrite (read_back_mapped _ _ _ _ upperOf_idem Hget) in Ep.
      injection Ep as <-. reflexivity.
  - intros Hd Hp.
    destruct (Hs "dex" lowerOf ltac:(simpl; tauto) Hd) as [Hgd _].
    destruct (Hs "pair" upperOf ltac:(simpl; tauto) Hp) as [Hgp _].
    rewrite (read_back_mapped _ _ _ _ lowerOf_idem Hgd). simpl.
    rewrite (read_back_mapped _ _ _ _ upperOf_idem Hgp). simpl.
    eexists. reflexivity.
Qed.

Lemma setFilterMulti_then_getFilterMulti_witness :
  exists w1 r,
    setFilterMulti (VObj [("cex", VArr [VStr "binance"]); ("dex", VArr [VStr "UniSwap"]);
                          ("pair", VArr [])])
                   (page [] ∅) = Some w1 /\
    getFilterMulti w1 = Some r /\
    getProp r "cex" = VArr [VStr "BINANCE"] /\
    getProp r "dex" = VArr [VStr "uniswap"].
Proof.
  eexists. eexists. split; [reflexivity|]. split; [reflexivity|].
  split.
  - exact (proj1 (setFilterMulti_then_getFilterMulti (page [] ∅) _
                    (VObj [("cex", VArr [VStr "binance"]); ("dex", VArr [VStr "UniSwap"]);
                           ("pair", VArr [])]) eq_refl)
             _ eq_refl "cex" upperOf ltac:(simpl; tauto) eq_refl).
  - exact (proj1 (setFilterMulti_then_getFilterMulti (page [] ∅) _
                    (VObj [("cex", VArr [VStr "binance"]); ("dex", VArr [VStr "UniSwap"]);
                           ("pair", VArr [])]) eq_refl)
             _ eq_refl "dex" lowerOf ltac:(simpl; tauto) eq_refl).
Defined.

Lemma getFilterChain_present (chain : value) (w : Window) (f : value) :
  storage w !! ("FILTER_" +:+ Str.toUpperCase (Str.toLowerCase (String_ chain))) = Some f ->
  isRecord f = true ->
  getFilterChain chain w = (readChainRecord f, w).
Proof.
  intros Hs Hr. unfold getFilterChain, getFromLocalStorage. rewrite Hs. simpl default.
  assert (Hr' := Hr). unfold isRecord in Hr'. apply andb_true_iff in Hr'.
  destruct Hr' as [Ht Ho]. rewrite Ht, Ho. simpl. rewrite Hr. reflexivity.
Qed.




Lemma getFilterCEX_written (cexName : value) (next : list (string * value)) (w : Window) :
  getFilterCEX cexName (writeRecord (cexFilterKey cexName) next w)
  = (pair ← mapField upperOf (VObj next) "pair";
     dex ← mapField lowerOf (VObj next) "dex";
     Some (VObj [("chains", asStored (VObj next) "chains");
                 ("pair", pair); ("dex", dex);
                 ("sort", or (getProp (VObj next) "sort") (VStr "A"))])).
Proof.
  unfold getFilterCEX, getFromLocalStorage. fold (cexFilterKey cexName).
  rewrite storage_writeRecord. reflexivity.
Qed.

Lemma cexFilterKey_any_case (cexName cexName' : value) :
  Str.toUpperCase (String_ cexName') = Str.toUpperCase (String_ cexName) ->
  cexFilterKey cexName' = cexFilterKey cexName.
Proof. intros H. unfold cexFilterKey. rewrite H. reflexivity. Qed.

(** X8.  What [setFilterCEX] has written under an exchange name,
    [getFilterCEX] reads back under that name in any letter case: chains,
    pairs and dex the input carried come back as the normalised input, a
    [sort] the input carried comes back as given (["A"] when it was
    falsy), and the read succeeds when the input carried [pair] and
    [dex]. *)
Theorem setFilterCEX_then_getFilterCEX (cexName cexName' : value) (w w1 : Window)
    (val : value) :
  setFilterCEX cexName val w = Some w1 ->
  Str.toUpperCase (String_ cexName') = Str.toUpperCase (String_ cexName) ->
  (forall r, getFilterCEX cexName' w1 = Some r ->
     (forall k norm, In (k, norm) cexFields -> present val k = true ->
        getProp r k = normalised norm val k) /\
     (present val "sort" = true ->
        getProp r "sort" = or (getProp val "sort") (VStr "A"))) /\
  (present val "pair" = true -> present val "dex" = true ->
   exists r, getFilterCEX cexName' w1 = Some r).
Proof.
  rewrite setFilterCEX_mergeAll. intros H Hcase.
  destruct (mergeAll cexFields val (prevRecord (cexFilterKey cexName) w))
    as [next|] eqn:E; simpl in H; [|discriminate].
  injection H as <-.
  assert (Hs : forall k norm, In (k, norm) cexFields -> present val k = true ->
               getOwn (sortStep val next) k = Some (normalised norm val k)).
  { intros k norm Hin Hp.
    destruct (mergeAll_success cexFields val cexFields_distinct _ _ E k norm Hin Hp)
      as [Hget _].
    rewrite getOwn_sortStep, (In_cexFields_not_sort k norm Hin). exact Hget. }
  rewrite <- (cexFilterKey_any_case cexName cexName' Hcase).
  rewrite getFilterCEX_written. split.
  - intros r Hr.
    destruct (mapField upperOf (VObj (sortStep val next)) "pair") as [p|] eqn:Ep;
      simpl in Hr; [|discriminate].
    destruct (mapField lowerOf (VObj (sortStep val next)) "dex") as [d|] eqn:Ed;
      simpl in Hr; [|discriminate].
    injection Hr as <-. split.
    + intros k norm Hin Hp. assert (Hget := Hs k norm Hin Hp).
      simpl in Hin. destruct Hin as [Hin|[Hin|[Hin|[]]]]; injection Hin as <- <-.
      * exact (read_back_asStored _ _ _ _ Hget).
      * rewrite (read_back_mapped _ _ _ _ upperOf_idem Hget) in Ep.
        injection Ep as <-. reflexivity.
      * rewrite (read_back_mapped _ _ _ _ lowerOf_idem Hget) in Ed.
        injection Ed as <-. reflexivity.
    + intros Hsort.
      change (or (getProp (VObj (sortStep val next)) "sort") (VStr "A")
              = or (getProp val "sort") (VStr "A")).
      unfold getProp at 1. rewrite getOwn_sortStep, Hsort. reflexivity.
  - intros Hp Hd.
    rewrite (read_back_mapped _ _ _ _ upperOf_idem
               (Hs "pair" upperOf ltac:(simpl; tauto) Hp)). simpl.
    rewrite (read_back_mapped _ _ _ _ lowerOf_idem
               (Hs "dex" lowerOf ltac:(simpl; tauto) Hd)). simpl.
    eexists. reflexivity.
Qed.

Lemma setFilterCEX_then_getFilterCEX_witness :
  let val := VObj [("chains", VArr [VStr "BSC"]); ("sort", VStr "")] in
  let w1 := writeRecord "FILTER_CEX_GATE"
              [("chains", VArr [VStr "bsc"]); ("sort", VStr "")] (page [] ∅) in
  let r := VObj [("chains", VArr [VStr "bsc"]); ("pair", VArr []); ("dex", VArr []);
                 ("sort", VStr "A")] in
  setFilterCEX (VStr "gate") val (page [] ∅) = Some w1 /\
  getFilterCEX (VStr "GATE") w1 = Some r /\
  getProp r "chains" = VArr [VStr "bsc"] /\
  getProp r "sort" = VStr "A".
Proof.
  intros val w1 r.
  assert (Hw : setFilterCEX (VStr "gate") val (page [] ∅) = Some w1) by reflexivity.
  assert (Hr : getFilterCEX (VStr "GATE") w1 = Some r) by reflexivity.
  split; [exact Hw|]. split; [exact Hr|].
  destruct (proj1 (setFilterCEX_then_getFilterCEX (VStr "gate") (VStr "GATE") (page [] ∅) w1
                     val Hw eq_refl) r Hr) as [Hf Hsort].
  split.
  - exact (Hf "chains" lowerOf ltac:(simpl; tauto) eq_refl).
  - exact (Hsort eq_refl).
Defined.

(* ===================================================================== *)
(** ** The one write a chain-scope read makes                             *)
(* ===================================================================== *)

(** A read either leaves the window alone or copies a legacy record to
    the chain-scoped key. *)
Lemma getFilterChain_cases (chain : value) (w : Window) :
  let key := "FILTER_" +:+ Str.toUpperCase (Str.toLowerCase (String_ chain)) in
  snd (getFilterChain chain w) = w \/
  exists lf,
    isRecord lf = true /\
    getFilterChain chain w
      = (readChainRecord lf, set_storage (<[key := lf]> (storage w)) w).
Proof.
  cbv zeta. unfold getFilterChain.
  set (key := "FILTER_" +:+ Str.toUpperCase (Str.toLowerCase (String_ chain))).
  set (f := getFromLocalStorage key VNull (storage w)).
  fold (legacyNameOf (Str.toLowerCase (String_ chain)) w).
  set (legacy := legacyNameOf (Str.toLowerCase (String_ chain)) w).
  destruct (negb (truthy f) || negb (typeofObject f)).
  - destruct (negb (legacy =? "")).
    + destruct (isRecord (getFromLocalStorage ("FILTER_" +:+ legacy) VNull (storage w)))
        eqn:El.
      * right. exists (getFromLocalStorage ("FILTER_" +:+ legacy) VNull (storage w)).
        split; [exact El|]. rewrite El. reflexivity.
      * left. destruct (isRecord f); reflexivity.
    + left. destruct (isRecord f); reflexivity.
  - left. destruct (isRecord f); reflexivity.
Qed.

(** X9.  A chain-scope read is repeatable and touches nothing but the
    chain-scoped filter key: reading again in the window the first read
    left returns the same record and leaves that window as it is, and the
    first read changes neither any other key of the store nor the query,
    the mode cache, the history or the controller's state. *)
Theorem getFilterChain_repeatable (chain : value) (w : Window) :
  let key := "FILTER_" +:+ Str.toUpperCase (Str.toLowerCase (String_ chain)) in
  let w' := snd (getFilterChain chain w) in
  getFilterChain chain w' = (fst (getFilterChain chain w), w') /\
  (forall k, k <> key -> storage w' !! k = storage w !! k) /\
  search w' = search w /\ AppMode w' = AppMode w /\ history w' = history w /\
  active w' = active w /\ selectedCEX w' = selectedCEX w.
Proof.
  cbv zeta.
  destruct (getFilterChain_cases chain w) as [H|(lf & Hlf & E)].
  - rewrite H. split; [|repeat split].
    rewrite <- H at 3. destruct (getFilterChain chain w); reflexivity.
  - rewrite E. cbn [fst snd]. split; [|split].
    + apply getFilterChain_present; [|exact Hlf].
      cbn [storage set_storage]. apply lookup_insert_eq.
    + intros k Hk. cbn [storage set_storage]. apply lookup_insert_ne. congruence.
    + repeat split.
Qed.

Lemma getFilterChain_repeatable_witness :
  storage (snd (getFilterChain (VStr "Ethereum") (page [] legacyStore))) !! "FILTER_ERC"
  = storage (page [] legacyStore) !! "FILTER_ERC".
Proof.
  exact (proj1 (proj2 (getFilterChain_repeatable (VStr "Ethereum") (page [] legacyStore)))
           "FILTER_ERC" ltac:(discriminate)).
Defined.

Example getFilterChain_second_read :
  let w' := snd (getFilterChain (VStr "Ethereum") (page [] legacyStore)) in
  getFilterChain (VStr "Ethereum") w'
  = (Some (VObj [("cex", VArr [VStr "gate"]); ("pair", VArr []);
                 ("dex", VArr [VStr "kyberswap"])]), w').
Proof. reflexivity. Qed.

(* ===================================================================== *)
(** ** Enabled chains and exchanges                                       *)
(* ===================================================================== *)

Lemma filter_twice {A} (p : A -> bool) (l : list A) :
  List.filter p (List.filter p l) = List.filter p l.
Proof.
  induction l as [|x l IH]; simpl; [reflexivity|].
  destruct (p x) eqn:E; simpl; [rewrite E, IH|]; auto.
Qed.

Lemma includes_In (items : list value) (s : string) :
  includes items s = true <-> In (VStr s) items.
Proof.
  unfold includes. rewrite existsb_exists. split.
  - intros (x & Hin & Hx). destruct x; simpl in Hx; try discriminate.
    apply String.eqb_eq in Hx. subst. exact Hin.
  - intros Hin. exists (VStr s). split; [exact Hin|]. simpl. apply String.eqb_refl.
Qed.

Lemma getEnabledChains_stored (w : Window) (items : list value) :
  storage w !! "ENABLED_CHAINS" = Some (VArr items) ->
  getEnabledChains w = List.filter (chainValid w) items.
Proof. intros H. unfold getEnabledChains, getFromLocalStorage. rewrite H. reflexivity. Qed.

Lemma saveEnabledChains_array (items : list value) (w : Window) :
  saveEnabledChains (VArr items) w
  = set_storage (<["ENABLED_CHAINS" := VArr (List.filter (chainValid w) (map lowerOf items))]>
                   (storage w)) w.
Proof. reflexivity. Qed.

Lemma map_lowerOf_filter_fixed (p : value -> bool) (items : list value) :
  map lowerOf (List.filter p (map lowerOf items)) = List.filter p (map lowerOf items).
Proof.
  induction items as [|x l IH]; simpl; [reflexivity|].
  destruct (p (lowerOf x)); simpl; [rewrite lowerOf_idem, IH|]; auto.
Qed.

Lemma getEnabledChains_saved (w : Window) (items : list value) :
  getEnabledChains (saveEnabledChains (VArr items) w)
  = List.filter (chainValid w) (map lowerOf items).
Proof.
  rewrite (getEnabledChains_stored _ (List.filter (chainValid w) (map lowerOf items))).
  - apply (filter_twice (chainValid w)).
  - rewrite saveEnabledChains_array. cbn [storage set_storage]. apply lookup_insert_eq.
Qed.

(** X10.  Enabled chains round-trip through the store: after saving an
    array, [getEnabledChains] returns its elements in lower case, in order,
    less those without a truthy registry entry; saving what was read back
    changes nothing; and saving anything that is not an array leaves the
    window as it is. *)
Theorem enabledChains_round_trip :
  (forall (w : Window) (items : list value),
      getEnabledChains (saveEnabledChains (VArr items) w)
      = List.filter (chainValid w) (map lowerOf items)) /\
  (forall (w : Window) (items : list value),
      let w1 := saveEnabledChains (VArr items) w in
      saveEnabledChains (VArr (getEnabledChains w1)) w1 = w1) /\
  (forall (w : Window) (v : value),
      isArray v = false -> saveEnabledChains v w = w).
Proof.
  assert (Hget := getEnabledChains_saved).
  repeat apply conj.
  - exact Hget.
  - intros w items w1. unfold w1. rewrite Hget.
    rewrite !saveEnabledChains_array.
    change (chainValid (set_storage _ w)) with (chainValid w).
    rewrite map_lowerOf_filter_fixed, (filter_twice (chainValid w)).
    unfold set_storage. cbn. rewrite insert_insert_eq. reflexivity.
  - intros w v H. destruct v; try reflexivity. discriminate H.
Qed.

Example enabledChains_drop_unknown :
  getEnabledChains (saveEnabledChains (VArr [VStr "BSC"; VStr "nosuch"; VStr "Ethereum"])
                      (page [] ∅)) = [VStr "bsc"; VStr "ethereum"].
Proof. reflexivity. Qed.

Lemma enabledChains_round_trip_witness :
  isArray (VStr "bsc") = false /\
  saveEnabledChains (VStr "bsc") (page [] ∅) = page [] ∅.
Proof.
  split; [reflexivity|].
  exact (proj2 (proj2 enabledChains_round_trip) (page [] ∅) (VStr "bsc") eq_refl).
Defined.





Example isChainEnabled_any_case :
  isChainEnabled (VStr "Bsc") (saveEnabledChains (VArr [VStr "BSC"]) (page [] ∅)) = true /\
  isChainEnabled (VStr "ethereum") (saveEnabledChains (VArr [VStr "BSC"]) (page [] ∅)) = false /\
  isChainEnabled (VStr "") (saveEnabledChains (VArr [VStr "BSC"]) (page [] ∅)) = false.
Proof. repeat split. Qed.

Lemma getEnabledCEXs_stored (w : Window) (items : list value) :
  storage w !! "ENABLED_CEXS" = Some (VArr items) ->
  getEnabledCEXs w = List.filter (cexValid w) items.
Proof. intros H. unfold getEnabledCEXs, getFromLocalStorage. rewrite H. reflexivity. Qed.

(** X12.  Enabled exchanges round-trip without any change of case: after
    saving an array, [getEnabledCEXs] returns its elements as given, in
    order, less those without a truthy entry in the exchange registry; so
    [isCEXEnabled] answers true for a key exactly when the key in upper
    case, as a string, is itself among the saved elements and has a truthy
    registry entry. *)
Theorem enabledCEXs_round_trip :
  (forall (w : Window) (items : list value),
      getEnabledCEXs (saveEnabledCEXs (VArr items) w) = List.filter (cexValid w) items) /\
  (forall (w : Window) (items : list value) (cexKey : value),
      isCEXEnabled cexKey (saveEnabledCEXs (VArr items) w) = true <->
      In (VStr (Str.toUpperCase (String_ cexKey))) items /\
      cexValid w (VStr (Str.toUpperCase (String_ cexKey))) = true).
Proof.
  assert (Hget : forall w items,
             getEnabledCEXs (saveEnabledCEXs (VArr items) w)
             = List.filter (cexValid w) items).
  { intros w items.
    rewrite (getEnabledCEXs_stored _ (List.filter (cexValid w) items)).
    - apply (filter_twice (cexValid w)).
    - cbn [saveEnabledCEXs storage set_storage]. apply lookup_insert_eq. }
  split; [exact Hget|].
  intros w items cexKey. unfold isCEXEnabled. rewrite Hget, includes_In, filter_In.
  reflexivity.
Qed.

Lemma enabledCEXs_round_trip_witness :
  isCEXEnabled (VStr "okx")
    (saveEnabledCEXs (VArr [VStr "OKX"])
       (mkWindow [] None sampleChains (VObj []) (VObj [("OKX", VObj [])]) ∅ [] false
                 (VBool false) VNull []))
  = true.
Proof.
  apply (proj2 enabledCEXs_round_trip).
  split; [left; reflexivity | reflexivity].
Defined.

(** An exchange registry with upper-case and lower-case keys. *)
Example isCEXEnabled_misses_lower_case :
  let w := mkWindow [] None sampleChains (VObj [])
             (VObj [("GATE", VObj []); ("okx", VObj [])]) ∅ [] false (VBool false) VNull [] in
  let w1 := saveEnabledCEXs (VArr [VStr "GATE"; VStr "okx"]) w in
  getEnabledCEXs w1 = [VStr "GATE"; VStr "okx"] /\
  isCEXEnabled (VStr "gate") w1 = true /\
  isCEXEnabled (VStr "okx") w1 = false.
Proof. repeat split. Qed.

(* ===================================================================== *)
(** ** Query parameters                                                   *)
(* ===================================================================== *)

Lemma params_get_delete_eq (k : string) (q : URLSearchParams) :
  params_get (params_delete k q) k = None.
Proof.
  unfold params_delete. induction q as [|[k0 v0] q IH]; simpl; [reflexivity|].
  destruct (k0 =? k) eqn:E; simpl; [exact IH|]. rewrite E. exact IH.
Qed.


Lemma params_get_set_eq (k v : string) (q : URLSearchParams) :
  params_get (params_set k v q) k = Some v.
Proof.
  induction q as [|[k0 v0] q IH]; simpl.
  - rewrite String.eqb_refl. reflexivity.
  - destruct (k0 =? k) eqn:E; simpl.
    + rewrite String.eqb_refl. reflexivity.
    + rewrite E. exact IH.
Qed.


Lemma params_get_enableURL_cex (sel : string) (q : URLSearchParams) :
  params_get (enableURL sel q) "cex" = Some (Str.toLowerCase sel).
Proof. apply params_get_set_eq. Qed.


(* ===================================================================== *)
(** ** Reconciliation settles                                             *)
(* ===================================================================== *)







(* ===================================================================== *)
(** ** The mode after a transition                                        *)
(* ===================================================================== *)

Lemma resolveMode_ext (w w' : Window) :
  search w' = search w -> CONFIG_CHAINS w' = CONFIG_CHAINS w ->
  resolveMode w' = resolveMode w.
Proof. intros Hs Hc. unfold resolveMode. rewrite Hs, Hc. reflexivity. Qed.

Lemma enableCEXMode_registry (cexName : string) (reload : bool) (w : Window) :
  CONFIG_CHAINS (enableCEXMode cexName reload w) = CONFIG_CHAINS w /\
  CONFIG_CEX (enableCEXMode cexName reload w) = CONFIG_CEX w.
Proof.
  unfold enableCEXMode, refreshSignalCards, updateUI, applyTheme, pushState, saveState,
    invalidateAppModeCache.
  split_ifs; split; reflexivity.
Qed.







(** With white space around the name the two disagree. *)
Example enableCEXMode_untrimmed_name :
  let w' := enableCEXMode " gate" true (page [] ∅) in
  selectedCEX w' = VStr " GATE" /\ fst (getAppMode w') = Cex "GATE".
Proof. split; reflexivity. Qed.



(* ===================================================================== *)
(** ** Toggling                                                           *)
(* ===================================================================== *)

(** X16.  Toggling the same non-empty name twice from an inactive
    controller returns to inactive only when the name is already in upper
    case: the first toggle selects the name in upper case, and the second
    compares the selection with the name as given, so for any other
    spelling it enables again and the controller stays active. *)
Theorem toggleCEXMode_twice (cexName : string) (w : Window) :
  cexName <> "" -> truthy (active w) = false ->
  let w2 := toggleCEXMode cexName (toggleCEXMode cexName w) in
  (Str.toUpperCase cexName = cexName ->
   active w2 = VBool false /\ selectedCEX w2 = VNull /\
   params_get (search w2) "cex" = None) /\
  (Str.toUpperCase cexName <> cexName ->
   active w2 = VBool true /\ selectedCEX w2 = VStr (Str.toUpperCase cexName) /\
   params_get (search w2) "cex" = Some (Str.toLowerCase (Str.toUpperCase cexName))).
Proof.
  intros Hne Hoff. cbv zeta.
  assert (E1 : toggleCEXMode cexName w = enableCEXMode cexName true w).
  { unfold toggleCEXMode. rewrite Hoff. reflexivity. }
  rewrite E1.
  destruct (enableCEXMode_effect cexName true w Hne) as (Ha & Hs & _).
  set (w1 := enableCEXMode cexName true w) in *.
  unfold toggleCEXMode. rewrite Ha, Hs. simpl. split.
  - intros Hup. rewrite Hup, String.eqb_refl.
    destruct (disableCEXMode_effect true w1) as (Ha2 & Hs2 & _ & _ & Hq2).
    split; [exact Ha2|]. split; [exact Hs2|].
    rewrite Hq2. apply params_get_delete_eq.
  - intros Hup. apply String.eqb_neq in Hup. rewrite Hup.
    destruct (enableCEXMode_effect cexName true w1 Hne) as (Ha2 & Hs2 & _ & _ & Hq2 & _).
    split; [exact Ha2|]. split; [exact Hs2|].
    rewrite Hq2. apply params_get_enableURL_cex.
Qed.

Lemma toggleCEXMode_twice_witness :
  active (toggleCEXMode "BINANCE" (toggleCEXMode "BINANCE" (page [] ∅))) = VBool false /\
  active (toggleCEXMode "binance" (toggleCEXMode "binance" (page [] ∅))) = VBool true.
Proof.
  split.
  - exact (proj1 (proj1 (toggleCEXMode_twice "BINANCE" (page [] ∅)
                           ltac:(discriminate) eq_refl) eq_refl)).
  - exact (proj1 (proj2 (toggleCEXMode_twice "binance" (page [] ∅)
                           ltac:(discriminate) eq_refl) ltac:(discriminate))).
Defined.

(* ===================================================================== *)
(** ** Start-up                                                           *)
(* ===================================================================== *)

Lemma wf_truthy (w : Window) :
  CexModeState_wf w ->
  truthy (active w) && truthy (selectedCEX w) = true <-> active w = VBool true.
Proof.
  intros [[Ha Hs]|[Ha (s & Hne & Hs)]]; rewrite Ha, Hs; simpl.
  - split; discriminate.
  - rewrite (eqb_empty_false _ Hne). split; reflexivity.
Qed.

Lemma init_state (w : Window) (x : Window) :
  init w = renderToolbar (setupURLMonitoring x) ->
  active (init w) = active x /\ selectedCEX (init w) = selectedCEX x /\
  monitoring (init w) = true.
Proof. intros ->. repeat split. Qed.

Lemma init_reconciles (w : Window) :
  CexModeState_wf w ->
  CexModeState_wf (init w) /\
  (active (init w) = VBool true <-> param "cex" w <> "") /\
  (param "cex" w <> "" ->
   selectedCEX (init w) = VStr (Str.toUpperCase (param "cex" w))) /\
  monitoring (init w) = true.
Proof.
  intros Hwf. unfold param.
  destruct (String.eqb_spec (default "" (params_get (search w) "cex")) "") as [Ec|Ec].
  - assert (Hwt := wf_truthy w Hwf).
    destruct (truthy (active w) && truthy (selectedCEX w)) eqn:Et.
    + destruct (init_state w (disableCEXMode false w)) as (Ha & Hs & Hm).
      { unfold init. rewrite Ec, Et. reflexivity. }
      destruct (disableCEXMode_effect false w) as (Ha' & Hs' & _).
      rewrite Ha' in Ha. rewrite Hs' in Hs.
      split; [left; split; assumption|]. split; [|split; [contradiction | exact Hm]].
      rewrite Ha. split; [discriminate | contradiction].
    + destruct (init_state w w) as (Ha & Hs & Hm).
      { unfold init. rewrite Ec, Et. reflexivity. }
      assert (Hoff : active w <> VBool true).
      { intros H. apply Hwt in H. discriminate H. }
      split; [|split; [|split; [contradiction | exact Hm]]].
      * destruct Hwf as [[Ha0 Hs0]|[Ha0 _]]; [|contradiction].
        left. rewrite Ha, Hs. split; assumption.
      * rewrite Ha. split; [intros H; contradiction | contradiction].
  - set (c := default "" (params_get (search w) "cex")) in *.
    assert (Hup : Str.toUpperCase c <> "") by (apply toUpperCase_nonempty; exact Ec).
    destruct (init_state w (emit (EvSetTimeout 50 TaskRefreshAfterInit)
                              (enableCEXMode (Str.toUpperCase c) false w)))
      as (Ha & Hs & Hm).
    { unfold init. fold c. rewrite (eqb_empty_false _ Ec). reflexivity. }
    destruct (enableCEXMode_effect (Str.toUpperCase c) false w Hup) as (Ha' & Hs' & _).
    rewrite toUpperCase_idem in Hs'.
    set (X := enableCEXMode (Str.toUpperCase c) false w) in *.
    change (active (emit (EvSetTimeout 50 TaskRefreshAfterInit) X)) with (active X) in Ha.
    change (selectedCEX (emit (EvSetTimeout 50 TaskRefreshAfterInit) X))
      with (selectedCEX X) in Hs.
    rewrite Ha' in Ha. rewrite Hs' in Hs.
    split; [|split; [|split; [intros _; exact Hs | exact Hm]]].
    + right. split; [exact Ha|]. exists (Str.toUpperCase c). split; assumption.
    + rewrite Ha. split; [intros _; exact Ec | reflexivity].
Qed.

(** X17.  Start-up reconciliation makes the URL authoritative.  From a
    well-formed controller state (inactive without an exchange, or active
    with a non-empty one), [init] leaves a well-formed state that is active
    exactly when the query has a non-empty [cex] value, with that value in
    upper case as the selected exchange; and it switches the monitoring of
    history changes on. *)
Theorem init_follows_URL (w : Window) :
  CexModeState_wf w ->
  CexModeState_wf (init w) /\
  (active (init w) = VBool true <-> param "cex" w <> "") /\
  (param "cex" w <> "" ->
   selectedCEX (init w) = VStr (Str.toUpperCase (param "cex" w))) /\
  monitoring (init w) = true.
Proof.
  intros Hwf.
  destruct (init_reconciles w Hwf) as (Hstate & Hactive & Hselected & Hmon).
  split; [exact Hstate|]. split; [exact Hactive|].
  split; [exact Hselected | exact Hmon].
Qed.

Lemma init_follows_URL_witness :
  CexModeState_wf stateAhead /\
  active (init stateAhead) = VBool false /\
  selectedCEX (init urlAhead) = VStr "OKX".
Proof.
  assert (H1 : CexModeState_wf stateAhead).
  { right. split; [reflexivity|]. exists "OKX". split; [discriminate | reflexivity]. }
  assert (H2 : CexModeState_wf urlAhead) by (left; split; reflexivity).
  split; [exact H1|]. split.
  - destruct (init_follows_URL stateAhead H1) as ([[Ha _]|[Ha _]] & Hiff & _).
    + exact Ha.
    + exfalso. apply Hiff in Ha. apply Ha. reflexivity.
  - exact (proj1 (proj2 (proj2 (init_follows_URL urlAhead H2))) ltac:(discriminate)).
Defined.

(* ===================================================================== *)
(** ** Every operation of the controller                                  *)
(* ===================================================================== *)

Lemma stepped_refl (w : Window) : stepped w w.
Proof. left. repeat split. Qed.

Lemma stepped_frame (w0 w w1 w' : Window) :
  active w0 = active w -> selectedCEX w0 = selectedCEX w -> storage w0 = storage w ->
  active w' = active w1 -> selectedCEX w' = selectedCEX w1 -> storage w' = storage w1 ->
  stepped w0 w1 -> stepped w w'.
Proof.
  intros A0 S0 T0 A1 S1 T1 [(Ha & Hs & Ht)|(Hwf & Ht)].
  - left. repeat split; congruence.
  - right. split.
    + unfold CexModeState_wf in *. rewrite A1, S1. exact Hwf.
    + rewrite T1, A1, S1, Ht, T0. reflexivity.
Qed.

Lemma stepped_emit (e : Event) (w w' : Window) : stepped w w' -> stepped w (emit e w').
Proof. apply stepped_frame; reflexivity. Qed.

Lemma stepped_enable (cexName : string) (reload : bool) (w : Window) :
  stepped w (enableCEXMode cexName reload w).
Proof.
  destruct (String.eqb_spec cexName "") as [->|Hne]; [apply stepped_refl|].
  destruct (enableCEXMode_effect cexName reload w Hne) as (Ha & Hs & Ht & _).
  right. split.
  - right. split; [exact Ha|]. exists (Str.toUpperCase cexName).
    split; [apply toUpperCase_nonempty; exact Hne | exact Hs].
  - rewrite Ha, Hs. exact Ht.
Qed.

Lemma stepped_disable (reload : bool) (w : Window) :
  stepped w (disableCEXMode reload w).
Proof.
  destruct (disableCEXMode_effect reload w) as (Ha & Hs & Ht & _).
  right. split.
  - left. split; assumption.
  - rewrite Ha, Hs. exact Ht.
Qed.

Lemma stepped_checkURL (w : Window) : stepped w (checkURLAndUpdateMode w).
Proof.
  unfold checkURLAndUpdateMode.
  destruct (negb (default "" (params_get (search w) "cex") =? "")).
  - destruct (negb (truthy (active w)) || negb (strictEqStr _ _)).
    + apply stepped_enable.
    + apply stepped_refl.
  - destruct (truthy (active w)); [|apply stepped_refl].
    apply stepped_emit, stepped_disable.
Qed.

Lemma stepped_runOp (op : Op) (w : Window) : stepped w (runOp op w).
Proof.
  destruct op as [n r|r|n| | |q|t]; simpl.
  - apply stepped_enable.
  - apply stepped_disable.
  - unfold toggleCEXMode. destruct (_ && _); [apply stepped_disable | apply stepped_enable].
  - unfold init, renderToolbar, setupURLMonitoring.
    apply stepped_emit.
    match goal with
    | |- stepped w (set_monitoring true ?x) =>
        apply (stepped_frame w w x); try reflexivity
    end.
    destruct (negb (default "" (params_get (search w) "cex") =? "")).
    + apply stepped_emit, stepped_enable.
    + destruct (_ && _); [apply stepped_disable | apply stepped_refl].
  - apply stepped_checkURL.
  - unfold popstate.
    apply (stepped_frame (set_search q w) w
             (checkURLAndUpdateMode (set_search q w))); try reflexivity.
    apply stepped_checkURL.
  - destruct t; simpl.
    + apply stepped_checkURL.
    + unfold applyThemeForMode, getAppMode.
      destruct (AppMode w); apply stepped_emit;
        [apply stepped_refl | left; repeat split].
    + do 3 apply stepped_emit. apply stepped_refl.
Qed.

Lemma stepped_keeps (w w' : Window) :
  stepped w w' ->
  (forall k, k <> STORAGE_KEY -> storage w' !! k = storage w !! k) /\
  (mirrored w -> mirrored w') /\
  (CexModeState_wf w -> CexModeState_wf w').
Proof.
  intros [(Ha & Hs & Ht)|(Hwf & Ht)].
  - split; [intros k _; rewrite Ht; reflexivity|]. split.
    + unfold mirrored. rewrite Ha, Hs, Ht. trivial.
    + unfold CexModeState_wf. rewrite Ha, Hs. trivial.
  - split; [|split].
    + intros k Hk. rewrite Ht. apply lookup_insert_ne. congruence.
    + intros _. unfold mirrored. rewrite Ht. apply lookup_insert_eq.
    + intros _. exact Hwf.
Qed.

(** X18.  Whatever sequence of enable, disable, toggle, start-up, URL
    check, history navigation and timer the controller runs through, it
    writes to no key of the store but its own; once the persisted record
    mirrors the controller's state it keeps mirroring it; and a well-formed
    state (inactive without an exchange, or active with a non-empty one)
    stays well formed. *)
Theorem controller_runs (ops : list Op) (w : Window) :
  (forall k, k <> STORAGE_KEY -> storage (runOps ops w) !! k = storage w !! k) /\
  (mirrored w -> mirrored (runOps ops w)) /\
  (CexModeState_wf w -> CexModeState_wf (runOps ops w)).
Proof.
  revert w. induction ops as [|op ops IH]; intros w.
  - repeat split; trivial.
  - change (runOps (op :: ops) w) with (runOps ops (runOp op w)).
    destruct (stepped_keeps w (runOp op w) (stepped_runOp op w)) as (F1 & M1 & W1).
    destruct (IH (runOp op w)) as (F2 & M2 & W2).
    split; [|split].
    + intros k Hk. rewrite (F2 k Hk). apply F1. exact Hk.
    + intros H. apply M2, M1, H.
    + intros H. apply W2, W1, H.
Qed.

Lemma controller_runs_witness :
  storage (runOps [OpInit; OpToggle "GATE"; OpPopstate []; OpTimer TaskCheckURL]
             (page [("cex", "okx")] {["FILTER_MULTICHAIN" := storedMulti]}))
    !! "FILTER_MULTICHAIN"
  = Some storedMulti.
Proof.
  exact (proj1 (controller_runs
                  [OpInit; OpToggle "GATE"; OpPopstate []; OpTimer TaskCheckURL]
                  (page [("cex", "okx")] {["FILTER_MULTICHAIN" := storedMulti]}))
           "FILTER_MULTICHAIN" ltac:(discriminate)).
Defined.

(** X19.  A page reload restores the controller: constructing the
    controller from a store whose record mirrors a well-formed state gives
    back exactly that state. *)
Theorem constructor_restores (w : Window) :
  CexModeState_wf w -> mirrored w ->
  active (constructor w) = active w /\ selectedCEX (constructor w) = selectedCEX w.
Proof.
  intros Hwf Hm. unfold constructor.
  rewrite (loadState_persisted w _ _ Hm). cbn [active selectedCEX set_manager].
  destruct Hwf as [[Ha Hs]|[Ha (s & Hne & Hs)]]; rewrite Ha, Hs.
  - split; reflexivity.
  - split; [reflexivity|]. unfold or, getProp. simpl.
    rewrite (eqb_empty_false _ Hne). reflexivity.
Qed.

Lemma constructor_restores_witness :
  active (constructor (enableCEXMode "gate" true (page [] ∅))) = VBool true /\
  selectedCEX (constructor (enableCEXMode "gate" true (page [] ∅))) = VStr "GATE".
Proof.
  apply (constructor_restores (enableCEXMode "gate" true (page [] ∅))).
  - right. split; [reflexivity|]. exists "GATE". split; [discriminate | reflexivity].
  - reflexivity.
Defined.

(* ===================================================================== *)
(** ** Themes                                                             *)
(* ===================================================================== *)







(* ===================================================================== *)
(** ** Tokens of an exchange                                              *)
(* ===================================================================== *)

Lemma filterM_total (p : value -> option bool) (q : value -> bool) (items : list value) :
  (forall x, In x items -> p x = Some (q x)) ->
  filterM p items = Some (List.filter q items).
Proof.
  induction items as [|x l IH]; simpl; intros H; [reflexivity|].
  rewrite (H x (or_introl eq_refl)), IH by (intros y Hy; apply H; right; exact Hy).
  simpl. destruct (q x); reflexivity.
Qed.

Lemma filterM_throws (p : value -> option bool) (items : list value) (x : value) :
  In x items -> p x = None -> filterM p items = None.
Proof.
  induction items as [|y l IH]; simpl; intros Hin Hx; [contradiction|].
  destruct Hin as [->|Hin].
  - rewrite Hx. reflexivity.
  - destruct (p y); [|reflexivity]. rewrite (IH Hin Hx). reflexivity.
Qed.

Lemma tokenCex_readable (token : value) :
  readable token -> tokenCex token = Some (getProp token "cex").
Proof. intros [H1 H2]. destruct token; try reflexivity; contradiction. Qed.

(** X21.  For a non-empty exchange name and token records that are
    neither [null] nor [undefined], [getEnabledTokensPerCEX] returns, in
    their order, exactly the tokens whose [cex] field equals the name up to
    letter case; the empty name gives the empty list; the letter case of
    the name does not matter; and one [null] or [undefined] token makes the
    whole call fail. *)
Theorem getEnabledTokensPerCEX_spec :
  (forall (cexName : string) (allFlat : list value),
      cexName <> "" -> Forall readable allFlat ->
      getEnabledTokensPerCEX cexName allFlat
      = Some (List.filter (tokenOnCex cexName) allFlat)) /\
  (forall allFlat : list value, getEnabledTokensPerCEX "" allFlat = Some []) /\
  (forall (cexName : string) (allFlat : list value),
      getEnabledTokensPerCEX (Str.toUpperCase cexName) allFlat
      = getEnabledTokensPerCEX cexName allFlat) /\
  (forall (cexName : string) (allFlat : list value) (token : value),
      cexName <> "" -> In token allFlat -> ~ readable token ->
      getEnabledTokensPerCEX cexName allFlat = None).
Proof.
  split; [|split; [|split]].
  - intros cexName allFlat Hne Hall. unfold getEnabledTokensPerCEX.
    rewrite (eqb_empty_false _ Hne).
    apply filterM_total. intros x Hin.
    rewrite Forall_forall in Hall.
    rewrite (tokenCex_readable x (Hall x ltac:(apply list_elem_of_In; exact Hin))).
    reflexivity.
  - reflexivity.
  - intros cexName allFlat. unfold getEnabledTokensPerCEX.
    destruct cexName as [|c s]; [reflexivity|]. simpl (_ =? "").
    rewrite toUpperCase_idem. reflexivity.
  - intros cexName allFlat token Hne Hin Hbad. unfold getEnabledTokensPerCEX.
    rewrite (eqb_empty_false _ Hne).
    apply (filterM_throws _ _ token Hin).
    destruct token; try reflexivity; exfalso; apply Hbad; split; discriminate.
Qed.

Lemma getEnabledTokensPerCEX_spec_witness :
  getEnabledTokensPerCEX "gate"
    [VObj [("symbol", VStr "A"); ("cex", VStr "GATE")];
     VObj [("symbol", VStr "B"); ("cex", VStr "okx")];
     VObj [("symbol", VStr "C"); ("cex", VStr "Gate")]]
  = Some [VObj [("symbol", VStr "A"); ("cex", VStr "GATE")];
          VObj [("symbol", VStr "C"); ("cex", VStr "Gate")]].
Proof.
  apply (proj1 getEnabledTokensPerCEX_spec "gate"
           [VObj [("symbol", VStr "A"); ("cex", VStr "GATE")];
            VObj [("symbol", VStr "B"); ("cex", VStr "okx")];
            VObj [("symbol", VStr "C"); ("cex", VStr "Gate")]]).
  - discriminate.
  - repeat constructor; discriminate.
Defined.

(* ===================================================================== *)
(** ** Two readers of the [cex] parameter                                 *)
(* ===================================================================== *)

Lemma init_with_cex (w : Window) :
  param "cex" w <> "" ->
  init w = renderToolbar
             (setupURLMonitoring
                (emit (EvSetTimeout 50 TaskRefreshAfterInit)
                   (enableCEXMode (Str.toUpperCase (param "cex" w)) false w))).
Proof.
  unfold param. intros H. unfold init. rewrite (eqb_empty_false _ H). reflexivity.
Qed.

Lemma resolveMode_blank_cex (w : Window) :
  Str.trim (default "" (params_get (search w) "cex")) = "" ->
  forall e, resolveMode w <> Cex e.
Proof.
  intros H e. unfold resolveMode. rewrite H. simpl.
  destruct (_ || _); [discriminate|]. destruct (_ && _); discriminate.
Qed.

(** X22.  After start-up from a well-formed controller state,
    [getActiveFilterForMode] reads the scope the URL selects: the
    exchange-scope filters of the [cex] value in upper case when the query
    has a non-empty one, and the aggregate filters otherwise. *)
Theorem getActiveFilterForMode_after_init (w : Window) :
  CexModeState_wf w ->
  (param "cex" w <> "" ->
   getActiveFilterForMode (init w)
   = getFilterCEX (VStr (Str.toUpperCase (param "cex" w))) (init w)) /\
  (param "cex" w = "" ->
   getActiveFilterForMode (init w) = getFilterMulti (init w)).
Proof.
  intros Hwf. destruct (init_reconciles w Hwf) as (_ & Hiff & Hsel & _).
  unfold getActiveFilterForMode, isCEXMode, getSelectedCEX. split.
  - intros Hc. rewrite (proj2 Hiff Hc), (Hsel Hc). reflexivity.
  - intros Hc.
    destruct (truthy (active (init w))) eqn:Et; [|reflexivity].
    exfalso.
    destruct (init_reconciles w Hwf) as ([[Ha _]|[Ha _]] & _).
    + rewrite Ha in Et. discriminate Et.
    + apply Hiff in Ha. contradiction.
Qed.

Lemma getActiveFilterForMode_after_init_witness :
  getActiveFilterForMode (init urlAhead) = getFilterCEX (VStr "OKX") (init urlAhead).
Proof.
  exact (proj1 (getActiveFilterForMode_after_init urlAhead
                  (or_introl (conj eq_refl eq_refl))) ltac:(discriminate)).
Defined.

(** X23.  A [cex] value that is not empty but consists of white space
    only is read differently by the two readers of the parameter: start-up
    activates the controller for it, while [getAppMode] trims it away and
    never answers an exchange mode, neither before nor after start-up. *)
Theorem blank_cex_disagreement (w : Window) :
  param "cex" w <> "" -> Str.trim (param "cex" w) = "" ->
  active (init w) = VBool true /\
  selectedCEX (init w) = VStr (Str.toUpperCase (param "cex" w)) /\
  (forall e, fst (getAppMode (invalidateAppModeCache w)) <> Cex e) /\
  (forall e, fst (getAppMode (init w)) <> Cex e).
Proof.
  intros Hne Hblank.
  assert (Hup : Str.toUpperCase (param "cex" w) <> "")
    by (apply toUpperCase_nonempty; exact Hne).
  destruct (enableCEXMode_effect (Str.toUpperCase (param "cex" w)) false w Hup)
    as (Ha & Hs & _ & _ & Hq & Hm).
  rewrite toUpperCase_idem in Hs, Hq.
  rewrite (init_with_cex w Hne).
  set (X := enableCEXMode (Str.toUpperCase (param "cex" w)) false w) in *.
  split; [exact Ha|]. split; [exact Hs|]. split.
  - intros e. rewrite getAppMode_fresh by reflexivity. cbn [fst].
    apply resolveMode_blank_cex. exact Hblank.
  - intros e.
    rewrite getAppMode_fresh by exact Hm. cbn [fst].
    rewrite (resolveMode_ext X _) by reflexivity.
    apply resolveMode_blank_cex.
    rewrite Hq, params_get_enableURL_cex. simpl default.
    rewrite trim_toLowerCase, trim_toUpperCase, Hblank. reflexivity.
Qed.

Lemma blank_cex_disagreement_witness :
  active (init (page [("cex", " ")] ∅)) = VBool true /\
  fst (getAppMode (init (page [("cex", " ")] ∅))) = Multi.
Proof.
  split.
  - exact (proj1 (blank_cex_disagreement (page [("cex", " ")] ∅)
                    ltac:(discriminate) eq_refl)).
  - reflexivity.
Defined.
